(** * ds_tracker: the student goals widget
    ([client/src/components/student-goals.tsx])

    A shallow embedding of the component's logic: the progress classifier
    ([getProgressPercentage], [getStatusColor], [getStatusBadge]), the goal
    selection and rendering of [StudentGoals], and the delete mutation with
    its [onSuccess] / [onError] handlers.

    The classifier computes on JavaScript Numbers, that is on IEEE 754
    binary64 values.  A Number is modelled by its exact rational value, and
    [/] and [*] by the exact operation followed by the rounding ECMA-262
    prescribes (round to nearest, ties to even, with subnormals and overflow
    to an infinity).  The model is compared with the Standard Library's
    [SpecFloat] on the quotients of all counts up to 64 and on edge cases.

    Layout: the Numbers, the classifier, the view, the query client and the
    mutation; then the lemmas on rounding; then the properties of the
    component. *)

From Stdlib Require Import ZArith QArith Qround Qpower Lia Lqa Bool.
From Stdlib Require Import Floats.SpecFloat.
From stdpp Require Import gmap strings list pretty.

(** ** JavaScript Numbers *)

Module Number.

Local Open Scope Q_scope.

(** A Number is NaN, an infinity, or a finite value in sign-magnitude form
    (so that -0 is [Fin true 0]).  [mag] is meant to be non-negative. *)
Inductive number : Type :=
| NaN
| Infinity (neg : bool)
| Fin (neg : bool) (mag : Q).

(** The Number for a mathematical integer.  The value is kept exact: the
    Number is a genuine double when [is_double] holds of it, which is the
    case of every integer from 0 to below 2^53. *)
Definition of_Z (z : Z) : number := Fin (z <? 0)%Z (inject_Z (Z.abs z)).

(** The signed rational value of a finite Number. *)
Definition signed (neg : bool) (mag : Q) : Q := if neg then - mag else mag.

(** *** Rounding to binary64 *)

(** floor (log2 q) for q > 0. *)
Definition ilog2 (q : Q) : Z :=
  let k := (Z.log2 (Qnum q) - Z.log2 (Zpos (Qden q)))%Z in
  if Qle_bool (2 ^ k) q then k else (k - 1)%Z.

(** Exponent of the binary64 grid around q: 53 significant bits, and the
    subnormal spacing 2^-1074 at the bottom. *)
Definition ulp_exp (q : Q) : Z := Z.max (ilog2 q - 52) (-1074).

(** Nearest integer, ties to the even one (x >= 0). *)
Definition round_half_even (x : Q) : Z :=
  let f := Qfloor x in
  match Qcompare (x - inject_Z f) (1 # 2) with
  | Lt => f
  | Gt => (f + 1)%Z
  | Eq => if Z.even f then f else (f + 1)%Z
  end.

(** The nearest point to q > 0 of the binary64 grid, were the exponent
    range unbounded above. *)
Definition nearest (q : Q) : Q :=
  let e := ulp_exp q in
  inject_Z (round_half_even (q / 2 ^ e)) * 2 ^ e.

(** The Number value for a non-negative real q carrying sign [neg]:
    IEEE 754 roundTiesToEven, overflowing to an infinity from 2^1024 on. *)
Definition roundTiesToEven (neg : bool) (q : Q) : number :=
  if Qeq_bool q 0 then Fin neg 0
  else
    let v := nearest q in
    if Qle_bool (2 ^ 1024) v then Infinity neg else Fin neg v.

(** A finite Number of the model is a genuine binary64 value when rounding
    leaves it unchanged. *)
Definition is_double (x : number) : bool :=
  match x with
  | Fin s q =>
      match roundTiesToEven s q with
      | Fin _ q' => Qeq_bool q q'
      | _ => false
      end
  | _ => true
  end.

(** *** Arithmetic (ECMA-262, Number::divide and Number::multiply) *)

Definition divide (x y : number) : number :=
  match x, y with
  | NaN, _ | _, NaN => NaN
  | Infinity _, Infinity _ => NaN
  | Infinity sx, Fin sy _ => Infinity (xorb sx sy)
  | Fin sx _, Infinity sy => Fin (xorb sx sy) 0
  | Fin sx a, Fin sy b =>
      if Qeq_bool b 0
      then (if Qeq_bool a 0 then NaN else Infinity (xorb sx sy))
      else roundTiesToEven (xorb sx sy) (a / b)
  end.

Definition multiply (x y : number) : number :=
  match x, y with
  | NaN, _ | _, NaN => NaN
  | Infinity sx, Infinity sy => Infinity (xorb sx sy)
  | Infinity sx, Fin sy b =>
      if Qeq_bool b 0 then NaN else Infinity (xorb sx sy)
  | Fin sx a, Infinity sy =>
      if Qeq_bool a 0 then NaN else Infinity (xorb sx sy)
  | Fin sx a, Fin sy b => roundTiesToEven (xorb sx sy) (a * b)
  end.

(** *** Comparison *)

(** x < y on Numbers other than NaN (+0 and -0 compare equal). *)
Definition ltb (x y : number) : bool :=
  match x, y with
  | NaN, _ | _, NaN => false
  | Infinity sx, Infinity sy => sx && negb sy
  | Infinity sx, Fin _ _ => sx
  | Fin _ _, Infinity sy => negb sy
  | Fin sx a, Fin sy b => negb (Qle_bool (signed sy b) (signed sx a))
  end.

(** The operator [x >= y]: false as soon as an operand is NaN. *)
Definition geb (x y : number) : bool :=
  match x, y with
  | NaN, _ | _, NaN => false
  | _, _ => negb (ltb x y)
  end.

(** *** Math.round and Math.min *)

(** [Math.round]: the nearest integer, ties towards +Infinity; values in
    [-0.5, -0] give -0. *)
Definition Math_round (x : number) : number :=
  match x with
  | NaN => NaN
  | Infinity s => Infinity s
  | Fin false q => Fin false (inject_Z (Qfloor (q + (1 # 2))))
  | Fin true q => Fin true (inject_Z (- Qfloor (- q + (1 # 2))))
  end.

(** [Math.min] of two arguments: NaN if either is NaN, -0 below +0. *)
Definition Math_min (x y : number) : number :=
  match x, y with
  | NaN, _ | _, NaN => NaN
  | _, _ =>
      if ltb x y then x
      else if ltb y x then y
      else match x with
           | Fin true _ => x
           | _ => y
           end
  end.

(** *** The order on the Numbers a percentage can be *)

(** [x <= y] by value, between Numbers that are neither NaN nor negative. *)
Inductive le_nn : number -> number -> Prop :=
| le_nn_fin (a b : Q) : 0 <= a -> a <= b -> le_nn (Fin false a) (Fin false b)
| le_nn_fin_inf (a : Q) : 0 <= a -> le_nn (Fin false a) (Infinity false)
| le_nn_inf : le_nn (Infinity false) (Infinity false).

(** A non-negative Number, or +Infinity, of value at least c. *)
Definition at_least (c : Q) (z : number) : Prop :=
  match z with
  | Fin false v => c <= v
  | Infinity false => True
  | _ => False
  end.

End Number.

Import Number.

(** ** The progress classifier *)

(** [getProgressPercentage]:
    [Math.min(Math.round((current / target) * 100), 100)]. *)
Definition getProgressPercentage (current target : number) : number :=
  Math_min (Math_round (multiply (divide current target) (of_Z 100)))
           (of_Z 100).

(** [getStatusColor]: the class of the progress bar. *)
Definition getStatusColor (percentage : number) : string :=
  if geb percentage (of_Z 100) then "bg-green-500"
  else if geb percentage (of_Z 75) then "bg-blue-500"
  else if geb percentage (of_Z 50) then "bg-yellow-500"
  else "bg-slate-400".

(** The [<Badge className=...>label</Badge>] element. *)
Record Badge : Type := mkBadge { badge_className : string; badge_label : string }.

(** [getStatusBadge]. *)
Definition getStatusBadge (percentage : number) : Badge :=
  if geb percentage (of_Z 100) then mkBadge "bg-green-100 text-green-700" "Completed"
  else if geb percentage (of_Z 75) then mkBadge "bg-blue-100 text-blue-700" "Almost There"
  else if geb percentage (of_Z 50) then mkBadge "bg-yellow-100 text-yellow-700" "In Progress"
  else mkBadge "bg-slate-100 text-slate-700" "Just Started".

(** ** Goals and the rendered view *)

Inductive GoalType : Type := daily | weekly.

Definition GoalType_eqb (a b : GoalType) : bool :=
  match a, b with
  | daily, daily | weekly, weekly => true
  | _, _ => false
  end.

(** [interface Goal].  The id is only ever passed on to the delete request
    and is kept as an integer. *)
Record Goal : Type := mkGoal {
  id : Z;
  type : GoalType;
  target : number;
  current : number;
  date : string
}.

(** What a [GoalCard] shows: the icon and title chosen from [type], the
    badge, the goal whose id the delete button passes to [mutate], the
    "progress of target problems" line, and the percentage given both to the
    text and to the progress bar. *)
Record GoalCardView : Type := mkCard {
  card_icon : string;
  card_title : string;
  card_badge : Badge;
  card_goal : Goal;
  card_dialog_type : GoalType;
  card_progress : number;
  card_target : number;
  card_percentage : number
}.

Definition GoalCard (goal : Goal) (progress : number) (ty : GoalType)
  : GoalCardView :=
  let percentage := getProgressPercentage progress (target goal) in
  let Icon := if GoalType_eqb ty daily then "Clock" else "Calendar" in
  let title := if GoalType_eqb ty daily then "Daily Goal" else "Weekly Goal" in
  mkCard Icon title (getStatusBadge percentage) goal ty
         progress (target goal) percentage.

(** The component returns either the "No goals set yet" card or the list of
    goal cards. *)
Inductive View : Type :=
| EmptyState
| GoalCards (cards : list GoalCardView).

(** ToBoolean on a Number: +0, -0 and NaN are falsy. *)
Definition truthy (x : number) : bool :=
  match x with
  | NaN => false
  | Infinity _ => true
  | Fin _ q => negb (Qeq_bool q 0)
  end.

(** [data?.field || 0] for a read that may have no data yet. *)
Definition or_zero (x : option number) : number :=
  match x with
  | Some n => if truthy n then n else of_Z 0
  | None => of_Z 0
  end.

(** [{goal && <GoalCard ... />}]: nothing is rendered for [undefined]. *)
Definition and_render (g : option Goal) (card : Goal -> GoalCardView)
  : list GoalCardView :=
  match g with
  | Some goal => [card goal]
  | None => []
  end.

(** The body of [StudentGoals] after the three reads: [goals],
    [todayProgress?.completed_today] and [weekProgress?.completed_week]
    are [None] while the read has produced no data. *)
Definition StudentGoals (goals : option (list Goal))
    (completed_today completed_week : option number) : View :=
  match goals with
  | None => EmptyState
  | Some goals =>
      if (length goals =? 0)%nat then EmptyState
      else
        let dailyGoal := find (fun g => GoalType_eqb (type g) daily) goals in
        let weeklyGoal := find (fun g => GoalType_eqb (type g) weekly) goals in
        GoalCards
          (and_render dailyGoal
             (fun g => GoalCard g (or_zero completed_today) daily)
           ++ and_render weeklyGoal
             (fun g => GoalCard g (or_zero completed_week) weekly))
  end.

(** ** The query client, the toasts and the delete mutation *)

(** What the three reads of the component carry. *)
Inductive QueryData : Type :=
| GoalsData (goals : list Goal)
| TodayProgress (completed_today : number)
| WeekProgress (completed_week : number).

(** A cache entry of the query client: the data of the last successful
    fetch, whether the entry has been invalidated, and whether a fetch is
    in flight. *)
Record Query : Type := mkQuery {
  q_data : option QueryData;
  q_isInvalidated : bool;
  q_fetching : bool
}.

Record Toast : Type := mkToast {
  title : string;
  description : string;
  variant : option string
}.

Record Request : Type := mkRequest { method : string; url : string }.

(** The state the handlers act on: the cache, keyed by query key, the
    notifications shown so far and the requests sent so far. *)
Record Client : Type := mkClient {
  queries : gmap (list string) Query;
  toasts : list Toast;
  requests : list Request
}.

Definition goalsKey (studentRegNo : string) : list string :=
  ["/api/student"; studentRegNo; "goals"].
Definition todayKey (studentRegNo : string) : list string :=
  ["/api/student"; studentRegNo; "today-progress"].
Definition weekKey (studentRegNo : string) : list string :=
  ["/api/student"; studentRegNo; "week-progress"].

(** Modelled from the spec: the client-side cache/query layer is an external
    collaborator ("caches by key, and invalidates/refetches on mutation
    success").  [invalidateQueries({ queryKey })] marks every cached query
    whose key starts with [queryKey] as invalidated and refetches it; no other
    entry is touched. *)
Definition invalidate (q : Query) : Query :=
  mkQuery (q_data q) true true.

Definition invalidateQueries (queryKey : list string) (c : Client) : Client :=
  mkClient
    (map_imap (fun k q =>
                 Some (if bool_decide (queryKey `prefix_of` k)
                       then invalidate q else q))
              (queries c))
    (toasts c) (requests c).

(** Modelled from the spec: the notification surface; [toast] shows one more
    transient message. *)
Definition toast (t : Toast) (c : Client) : Client :=
  mkClient (queries c) (toasts c ++ [t]) (requests c).

(** [onSuccess] of [deleteGoalMutation]. *)
Definition onSuccess (studentRegNo : string) (c : Client) : Client :=
  toast (mkToast "Goal Deleted" "Your goal has been deleted successfully." None)
        (invalidateQueries (goalsKey studentRegNo) c).

(** [onError] of [deleteGoalMutation]. *)
Definition onError (c : Client) : Client :=
  toast (mkToast "Error" "Failed to delete goal. Please try again."
                 (Some "destructive")) c.

(** [useQuery]'s [data] for a key. *)
Definition useQuery (key : list string) (c : Client) : option QueryData :=
  match queries c !! key with
  | Some q => q_data q
  | None => None
  end.

Definition goals_data (d : option QueryData) : option (list Goal) :=
  match d with Some (GoalsData l) => Some l | _ => None end.
Definition today_data (d : option QueryData) : option number :=
  match d with Some (TodayProgress n) => Some n | _ => None end.
Definition week_data (d : option QueryData) : option number :=
  match d with Some (WeekProgress n) => Some n | _ => None end.

(** One render of the component against the cache. *)
Definition render (studentRegNo : string) (c : Client) : View :=
  StudentGoals (goals_data (useQuery (goalsKey studentRegNo) c))
               (today_data (useQuery (todayKey studentRegNo) c))
               (week_data (useQuery (weekKey studentRegNo) c)).

Section Mutation.

(** [apiRequest] lives in [@/lib/queryClient]; all the mutation sees of it
    is whether the promise of [mutationFn] (the request followed by
    [res.json()]) is fulfilled or rejected. *)
Variable apiRequest : string -> string -> bool.

Definition deleteUrl (studentRegNo : string) (goalId : Z) : string :=
  "/api/student/" +:+ studentRegNo +:+ "/goals/" +:+ pretty goalId.

(** Modelled from the spec: [useMutation] belongs to the query layer.
    [deleteGoalMutation.mutate(goalId)] runs [mutationFn] once ("no retry"),
    then [onSuccess] when its promise is fulfilled and [onError] when it is
    rejected. *)
Definition mutate (studentRegNo : string) (goalId : Z) (c : Client)
  : Client :=
  let u := deleteUrl studentRegNo goalId in
  let c1 := mkClient (queries c) (toasts c)
                     (requests c ++ [mkRequest "DELETE" u]) in
  if apiRequest "DELETE" u then onSuccess studentRegNo c1 else onError c1.

End Mutation.

(** ** The rounding model against the Standard Library's IEEE 754
       specification, on the values used below *)

Definition of_spec_float (x : spec_float) : number :=
  match x with
  | S754_zero s => Fin s 0
  | S754_infinity s => Infinity s
  | S754_nan => NaN
  | S754_finite s m e => Fin s (inject_Z (Zpos m) * 2 ^ e)%Q
  end.

Definition same_number (x y : number) : bool :=
  match x, y with
  | NaN, NaN => true
  | Infinity a, Infinity b => Bool.eqb a b
  | Fin a p, Fin b q => Bool.eqb a b && Qeq_bool p q
  | _, _ => false
  end.

Definition b64_of_Z (z : Z) : spec_float := binary_normalize 53 1024 z 0 false.

(** [(p / t) * 100] computed by [SFdiv] and [SFmul] at binary64. *)
Definition b64_ratio100 (p t : Z) : spec_float :=
  SFmul 53 1024 (SFdiv 53 1024 (b64_of_Z p) (b64_of_Z t)) (b64_of_Z 100).

(** ** The percentage as the specification words it *)

(** Nearest integer, ties away from zero. *)
Definition round_half_away (x : Q) : Z :=
  if Qle_bool 0 x then Qfloor (x + (1 # 2))
  else (- Qfloor (- x + (1 # 2)))%Z.

(** [clamp(round(100 × progress / target), 0, 100)] over the rationals, for a
    rounding [rnd] of the exact quotient. *)
Definition percentage_spec (rnd : Q -> Z) (progress target : Z) : Z :=
  Z.min (Z.max (rnd (inject_Z (100 * progress) / inject_Z target)%Q) 0) 100.

(** The margin, 2^-46, that the double rounding of the quotient and of the
    product leaves around the exact percentage below the target. *)
Definition tie_margin : Q := 1 # 70368744177664.

(** ** Goal selection as the specification words it *)

(** [g] is the first goal of kind [k] in the order of the list. *)
Definition first_of_kind (k : GoalType) (goals : list Goal) (g : Goal) : Prop :=
  exists before after : list Goal,
    goals = before ++ g :: after /\ type g = k /\
    Forall (fun g' => type g' <> k) before.

(** The goal cards a view contains. *)
Definition view_cards (v : View) : list GoalCardView :=
  match v with
  | EmptyState => []
  | GoalCards cards => cards
  end.

Definition cards_of_kind (k : GoalType) (cards : list GoalCardView)
  : list GoalCardView :=
  List.filter (fun c => GoalType_eqb (card_dialog_type c) k) cards.

(** The counter a card of kind [k] is given. *)
Definition progress_for (k : GoalType)
    (completed_today completed_week : option number) : number :=
  match k with
  | daily => or_zero completed_today
  | weekly => or_zero completed_week
  end.

(** ** Zero and infinite Numbers *)

(** +0 or -0. *)
Definition isZero (x : number) : bool :=
  match x with
  | Fin _ q => Qeq_bool q 0
  | _ => false
  end.

(** +Infinity or -Infinity. *)
Definition isInfinite (x : number) : bool :=
  match x with
  | Infinity _ => true
  | _ => false
  end.

(** * Facts about the rounding *)

Module NumberFacts.

Local Open Scope Q_scope.

Lemma pow2_pos (e : Z) : 0 < 2 ^ e.
Proof. apply Qpower_0_lt. reflexivity. Qed.

Lemma pow2_add (a b : Z) : 2 ^ (a + b) == 2 ^ a * 2 ^ b.
Proof. apply Qpower_plus. discriminate. Qed.

Lemma pow2_le (a b : Z) : (a <= b)%Z -> 2 ^ a <= 2 ^ b.
Proof. intros H. apply Qpower_le_compat_l; [exact H | discriminate]. Qed.

Lemma pow2_lt_inv (a b : Z) : 2 ^ a < 2 ^ b -> (a < b)%Z.
Proof. intros H. apply (Qpower_lt_compat_l_inv 2); [exact H | reflexivity]. Qed.

Lemma pow2_inject (n : Z) : (0 <= n)%Z -> inject_Z (2 ^ n) == 2 ^ n.
Proof. intros H. rewrite Zpower_Qpower by exact H. reflexivity. Qed.

(** ** floor and the two integer roundings *)

Lemma floor_bounds (x : Q) :
  inject_Z (Qfloor x) <= x /\ x < inject_Z (Qfloor x) + 1.
Proof.
  split; [apply Qfloor_le|].
  pose proof (Qlt_floor x) as H. rewrite inject_Z_plus in H. exact H.
Qed.

Lemma floor_ge (n : Z) (x : Q) : inject_Z n <= x -> (n <= Qfloor x)%Z.
Proof.
  intros H. rewrite <- (Qfloor_Z n). apply Qfloor_resp_le. exact H.
Qed.

(** Turn the result of a [Qcompare] into the order it stands for. *)
Ltac qcompare_in H :=
  match type of H with
  | _ = Eq => apply Qeq_alt in H
  | _ = Lt => apply Qlt_alt in H
  | _ = Gt => apply Qgt_alt in H
  end.

Lemma round_half_even_cases (x : Q) :
  let f := Qfloor x in
  (x - inject_Z f < 1 # 2 /\ round_half_even x = f) \/
  (1 # 2 <= x - inject_Z f /\ round_half_even x = (f + 1)%Z) \/
  (x - inject_Z f == 1 # 2 /\ round_half_even x = f).
Proof.
  intros f. unfold round_half_even. fold f.
  destruct (Qcompare (x - inject_Z f) (1 # 2)) eqn:E.
  - apply Qeq_alt in E. destruct (Z.even f).
    + right; right. split; [exact E | reflexivity].
    + right; left. split; [rewrite E; apply Qle_refl | reflexivity].
  - apply Qlt_alt in E. left. split; [exact E | reflexivity].
  - apply Qgt_alt in E. right; left. split; [apply Qlt_le_weak; exact E | reflexivity].
Qed.

Lemma round_half_even_near (x : Q) :
  x - (1 # 2) <= inject_Z (round_half_even x) /\
  inject_Z (round_half_even x) <= x + (1 # 2).
Proof.
  pose proof (floor_bounds x) as [Hl Hu].
  destruct (round_half_even_cases x) as [[H E] | [[H E] | [H E]]];
    rewrite E; try rewrite inject_Z_plus; change (inject_Z 1) with 1;
    split; lra.
Qed.

Lemma round_half_even_mono (x y : Q) :
  x <= y -> (round_half_even x <= round_half_even y)%Z.
Proof.
  intros Hxy.
  pose proof (Qfloor_resp_le _ _ Hxy) as Hf.
  pose proof (floor_bounds x) as [Hxl Hxu].
  pose proof (floor_bounds y) as [Hyl Hyu].
  destruct (Z.eq_dec (Qfloor x) (Qfloor y)) as [Heq | Hne].
  - unfold round_half_even. rewrite <- Heq.
    destruct (Qcompare (x - inject_Z (Qfloor x)) (1 # 2)) eqn:Ex;
      destruct (Qcompare (y - inject_Z (Qfloor x)) (1 # 2)) eqn:Ey;
      try (destruct (Z.even (Qfloor x))); try lia; exfalso;
      qcompare_in Ex; qcompare_in Ey; lra.
  - assert (Qfloor x + 1 <= Qfloor y)%Z as Hlt by lia.
    destruct (round_half_even_cases x) as [[_ E] | [[_ E] | [_ E]]];
      destruct (round_half_even_cases y) as [[_ E'] | [[_ E'] | [_ E']]];
      rewrite E, E'; lia.
Qed.

Lemma round_half_even_Z (n : Z) : round_half_even (inject_Z n) = n.
Proof.
  unfold round_half_even. rewrite Qfloor_Z.
  destruct (Qcompare (inject_Z n - inject_Z n) (1 # 2)) eqn:E.
  - apply Qeq_alt in E. exfalso. lra.
  - reflexivity.
  - apply Qgt_alt in E. exfalso. lra.
Qed.

Lemma round_half_even_ge (n : Z) (x : Q) :
  inject_Z n <= x -> (n <= round_half_even x)%Z.
Proof.
  intros H. rewrite <- (round_half_even_Z n). apply round_half_even_mono, H.
Qed.

Lemma round_half_even_le (n : Z) (x : Q) :
  x <= inject_Z n -> (round_half_even x <= n)%Z.
Proof.
  intros H. rewrite <- (round_half_even_Z n). apply round_half_even_mono, H.
Qed.

(** ** The binary exponent *)

Lemma ilog2_spec (q : Q) :
  0 < q -> 2 ^ ilog2 q <= q /\ q < 2 ^ (ilog2 q + 1).
Proof.
  intros Hq. destruct q as [n d].
  assert (0 < n)%Z as Hn by (unfold Qlt in Hq; simpl in Hq; lia).
  unfold ilog2. cbn [Qnum Qden].
  set (a := Z.log2 n). set (b := Z.log2 (Z.pos d)).
  set (N := inject_Z n). set (D := inject_Z (Z.pos d)).
  assert (0 <= a)%Z as Ha0 by apply Z.log2_nonneg.
  assert (0 <= b)%Z as Hb0 by apply Z.log2_nonneg.
  assert (2 ^ a <= N /\ N < 2 ^ (a + 1)) as [HaL HaU].
  { destruct (Z.log2_spec n Hn) as [H1 H2]. fold a in H1, H2.
    rewrite Zle_Qle in H1. rewrite Zlt_Qlt in H2.
    rewrite pow2_inject in H1 by lia.
    unfold Z.succ in H2. rewrite pow2_inject in H2 by lia. split; assumption. }
  assert (2 ^ b <= D /\ D < 2 ^ (b + 1)) as [HbL HbU].
  { destruct (Z.log2_spec (Z.pos d) eq_refl) as [H1 H2]. fold b in H1, H2.
    rewrite Zle_Qle in H1. rewrite Zlt_Qlt in H2.
    rewrite pow2_inject in H1 by lia.
    unfold Z.succ in H2. rewrite pow2_inject in H2 by lia. split; assumption. }
  assert (0 < D) as HD by reflexivity.
  assert ((n # d) * D == N) as HqD.
  { rewrite (Qmake_Qdiv n d). fold N D. field. intros E. rewrite E in HD.
    discriminate. }
  set (q := n # d) in *.
  assert (2 ^ (a - b - 1) <= q) as HL.
  { apply (Qmult_le_r _ _ D HD). rewrite HqD.
    apply Qle_trans with (2 ^ (a - b - 1) * 2 ^ (b + 1)).
    - apply Qmult_le_l; [apply pow2_pos | apply Qlt_le_weak, HbU].
    - rewrite <- pow2_add. replace (a - b - 1 + (b + 1))%Z with a by lia.
      exact HaL. }
  assert (q < 2 ^ (a - b + 1)) as HU.
  { apply (Qmult_lt_r _ _ D HD). rewrite HqD.
    apply Qlt_le_trans with (2 ^ (a - b + 1) * 2 ^ b).
    - rewrite <- pow2_add. replace (a - b + 1 + b)%Z with (a + 1)%Z by lia.
      exact HaU.
    - apply Qmult_le_l; [apply pow2_pos | exact HbL]. }
  destruct (Qle_bool (2 ^ (a - b)) q) eqn:E.
  - apply Qle_bool_iff in E. split; assumption.
  - split; [exact HL|].
    replace (a - b - 1 + 1)%Z with (a - b)%Z by lia.
    apply Qnot_le_lt. intros H. apply Qle_bool_iff in H. congruence.
Qed.

Lemma ilog2_mono (p q : Q) : 0 < p -> p <= q -> (ilog2 p <= ilog2 q)%Z.
Proof.
  intros Hp Hpq.
  assert (0 < q) as Hq by (eapply Qlt_le_trans; eassumption).
  destruct (ilog2_spec p Hp) as [HL _].
  destruct (ilog2_spec q Hq) as [_ HU].
  assert (ilog2 p < ilog2 q + 1)%Z; [|lia].
  apply pow2_lt_inv.
  eapply Qle_lt_trans; [exact HL|]. eapply Qle_lt_trans; eassumption.
Qed.

Lemma ilog2_lt (q : Q) (k : Z) : 0 < q -> q < 2 ^ k -> (ilog2 q < k)%Z.
Proof.
  intros Hq H. destruct (ilog2_spec q Hq) as [HL _].
  apply pow2_lt_inv. eapply Qle_lt_trans; eassumption.
Qed.

Lemma ulp_exp_mono (p q : Q) : 0 < p -> p <= q -> (ulp_exp p <= ulp_exp q)%Z.
Proof.
  intros Hp Hpq. unfold ulp_exp.
  pose proof (ilog2_mono p q Hp Hpq). lia.
Qed.

(** ** The nearest grid point *)

Lemma scaled_lt (q : Q) : 0 < q -> q / 2 ^ ulp_exp q < inject_Z (2 ^ 53).
Proof.
  intros Hq. destruct (ilog2_spec q Hq) as [_ HU].
  apply Qlt_shift_div_r; [apply pow2_pos|].
  rewrite (pow2_inject 53) by lia. rewrite <- pow2_add.
  eapply Qlt_le_trans; [exact HU|]. apply pow2_le. unfold ulp_exp. lia.
Qed.

Lemma scaled_ge (q : Q) :
  0 < q -> (-1074 < ulp_exp q)%Z -> inject_Z (2 ^ 52) <= q / 2 ^ ulp_exp q.
Proof.
  intros Hq He. destruct (ilog2_spec q Hq) as [HL _].
  apply Qle_shift_div_l; [apply pow2_pos|].
  rewrite (pow2_inject 52) by lia. rewrite <- pow2_add.
  eapply Qle_trans; [|exact HL]. apply pow2_le. unfold ulp_exp in *. lia.
Qed.

Lemma nearest_le_pow (q : Q) :
  0 < q -> nearest q <= 2 ^ (ulp_exp q + 53).
Proof.
  intros Hq. unfold nearest.
  rewrite (Z.add_comm (ulp_exp q) 53), pow2_add.
  apply Qmult_le_r; [apply pow2_pos|].
  rewrite <- (pow2_inject 53) by lia. rewrite <- Zle_Qle.
  apply round_half_even_le. apply Qlt_le_weak, scaled_lt, Hq.
Qed.

Lemma nearest_ge_pow (q : Q) :
  0 < q -> (-1074 < ulp_exp q)%Z -> 2 ^ (ulp_exp q + 52) <= nearest q.
Proof.
  intros Hq He. unfold nearest.
  rewrite (Z.add_comm (ulp_exp q) 52), pow2_add.
  apply Qmult_le_r; [apply pow2_pos|].
  rewrite <- (pow2_inject 52) by lia. rewrite <- Zle_Qle.
  apply round_half_even_ge. apply scaled_ge; assumption.
Qed.

Lemma nearest_nonneg (q : Q) : 0 < q -> 0 <= nearest q.
Proof.
  intros Hq. unfold nearest.
  apply Qmult_le_0_compat; [|apply Qlt_le_weak, pow2_pos].
  change 0 with (inject_Z 0). rewrite <- Zle_Qle.
  apply round_half_even_ge. change (inject_Z 0) with 0.
  apply Qle_shift_div_l; [apply pow2_pos|]. lra.
Qed.

(** Rounding to nearest is monotone. *)
Lemma nearest_mono (p q : Q) : 0 < p -> p <= q -> nearest p <= nearest q.
Proof.
  intros Hp Hpq.
  assert (0 < q) as Hq by (eapply Qlt_le_trans; eassumption).
  pose proof (ulp_exp_mono p q Hp Hpq) as He.
  destruct (Z.eq_dec (ulp_exp p) (ulp_exp q)) as [Heq | Hne].
  - unfold nearest. rewrite Heq.
    apply Qmult_le_r; [apply pow2_pos|]. rewrite <- Zle_Qle.
    apply round_half_even_mono.
    apply Qmult_le_r; [apply Qinv_lt_0_compat, pow2_pos | exact Hpq].
  - apply Qle_trans with (2 ^ (ulp_exp p + 53)); [apply nearest_le_pow, Hp|].
    apply Qle_trans with (2 ^ (ulp_exp q + 52)).
    + apply pow2_le. lia.
    + apply nearest_ge_pow; [exact Hq|]. unfold ulp_exp in *. lia.
Qed.

(** The rounding error is at most half a unit in the last place. *)
Lemma nearest_error (q : Q) :
  0 < q ->
  q - (1 # 2) * 2 ^ ulp_exp q <= nearest q /\
  nearest q <= q + (1 # 2) * 2 ^ ulp_exp q.
Proof.
  intros Hq. unfold nearest.
  set (e := ulp_exp q). pose proof (pow2_pos e) as He.
  assert (q == q / 2 ^ e * 2 ^ e) as Hs by (field; lra).
  destruct (round_half_even_near (q / 2 ^ e)) as [HL HU].
  set (s := q / 2 ^ e) in *. set (r := inject_Z (round_half_even s)) in *.
  assert ((s - (1 # 2)) * 2 ^ e <= r * 2 ^ e) as HL'
    by (apply Qmult_le_r; assumption).
  assert (r * 2 ^ e <= (s + (1 # 2)) * 2 ^ e) as HU'
    by (apply Qmult_le_r; assumption).
  rewrite Hs. split.
  - eapply Qle_trans; [|exact HL']. apply Qle_lteq. right. ring.
  - eapply Qle_trans; [exact HU'|]. apply Qle_lteq. right. ring.
Qed.

Lemma nearest_error_below (q : Q) (k : Z) :
  0 < q -> q < 2 ^ k -> (-1021 <= k)%Z ->
  q - 2 ^ (k - 54) <= nearest q /\ nearest q <= q + 2 ^ (k - 54).
Proof.
  intros Hq Hk Hrange.
  destruct (nearest_error q Hq) as [HL HU].
  assert ((1 # 2) * 2 ^ ulp_exp q <= 2 ^ (k - 54)) as Hulp.
  { change (1 # 2) with (2 ^ (-1)). rewrite <- pow2_add. apply pow2_le.
    pose proof (ilog2_lt q k Hq Hk). unfold ulp_exp. lia. }
  split; lra.
Qed.

(** ** Rounding on Numbers *)

Lemma of_Z_nonneg (z : Z) : (0 <= z)%Z -> of_Z z = Fin false (inject_Z z).
Proof.
  intros H. unfold of_Z.
  replace (z <? 0)%Z with false by (symmetry; apply Z.ltb_ge; exact H).
  rewrite Z.abs_eq by exact H. reflexivity.
Qed.

Lemma Qeq_bool_false_pos (q : Q) : 0 <= q -> Qeq_bool q 0 = false -> 0 < q.
Proof.
  intros H0 E. apply Qeq_bool_neq in E.
  apply Qle_lteq in H0. destruct H0 as [H0 | H0]; [exact H0|].
  exfalso. apply E. symmetry. exact H0.
Qed.

Lemma Qle_bool_false (x y : Q) : Qle_bool x y = false -> y < x.
Proof.
  intros E. apply Qnot_le_lt. intros H. apply Qle_bool_iff in H. congruence.
Qed.

Lemma roundTiesToEven_cases (q : Q) :
  0 <= q ->
  (q == 0 /\ roundTiesToEven false q = Fin false 0) \/
  (0 < q /\ nearest q < 2 ^ 1024 /\ roundTiesToEven false q = Fin false (nearest q)) \/
  (0 < q /\ 2 ^ 1024 <= nearest q /\ roundTiesToEven false q = Infinity false).
Proof.
  intros H0. unfold roundTiesToEven.
  destruct (Qeq_bool q 0) eqn:E0.
  - left. split; [apply Qeq_bool_iff, E0 | reflexivity].
  - pose proof (Qeq_bool_false_pos q H0 E0) as Hq.
    destruct (Qle_bool (2 ^ 1024) (nearest q)) eqn:E.
    + right; right. repeat split; [exact Hq | apply Qle_bool_iff, E].
    + right; left. repeat split; [exact Hq | apply Qle_bool_false, E].
Qed.

(** Rounding preserves the order of non-negative reals. *)
Lemma roundTiesToEven_mono (a b : Q) :
  0 <= a -> a <= b ->
  le_nn (roundTiesToEven false a) (roundTiesToEven false b).
Proof.
  intros Ha Hab.
  assert (0 <= b) as Hb by (eapply Qle_trans; eassumption).
  destruct (roundTiesToEven_cases a Ha) as [[Ea E] | [[Hq [Hfin E]] | [Hq [Hinf E]]]];
    destruct (roundTiesToEven_cases b Hb) as [[Eb E'] | [[Hq' [Hfin' E']] | [Hq' [Hinf' E']]]];
    rewrite E, E'; try (exfalso; lra);
    try pose proof (nearest_mono a b Hq Hab) as Hm;
    try (exfalso; lra).
  - constructor; apply Qle_refl.
  - constructor; [apply Qle_refl | apply nearest_nonneg, Hq'].
  - constructor. apply Qle_refl.
  - constructor; [apply nearest_nonneg, Hq | exact Hm].
  - constructor. apply nearest_nonneg, Hq.
  - constructor.
Qed.

Lemma le_nn_multiply_100 (x y : number) :
  le_nn x y -> le_nn (multiply x (of_Z 100)) (multiply y (of_Z 100)).
Proof.
  intros H. change (of_Z 100) with (Fin false 100).
  destruct H as [a b Ha Hab | a Ha |]; cbn [multiply xorb].
  - apply roundTiesToEven_mono; [|apply Qmult_le_compat_r; [exact Hab | discriminate]].
    apply Qmult_le_0_compat; [exact Ha | discriminate].
  - change (Qeq_bool 100 0) with false. cbv iota.
    assert (0 <= a * 100) as H0 by (apply Qmult_le_0_compat; [exact Ha | discriminate]).
    destruct (roundTiesToEven_cases _ H0) as [[_ E] | [[Hq [_ E]] | [_ [_ E]]]];
      rewrite E; constructor; try apply Qle_refl. apply nearest_nonneg, Hq.
  - change (Qeq_bool 100 0) with false. cbv iota. constructor.
Qed.

Lemma le_nn_Math_round (x y : number) :
  le_nn x y -> le_nn (Math_round x) (Math_round y).
Proof.
  intros H. destruct H as [a b Ha Hab | a Ha |]; cbn [Math_round].
  - constructor.
    + change 0 with (inject_Z 0). rewrite <- Zle_Qle. apply floor_ge.
      change (inject_Z 0) with 0. lra.
    + rewrite <- Zle_Qle. apply Qfloor_resp_le. lra.
  - constructor. change 0 with (inject_Z 0). rewrite <- Zle_Qle. apply floor_ge.
    change (inject_Z 0) with 0. lra.
  - constructor.
Qed.

(** Rounding to an integer respects the equality of rationals. *)
Lemma round_half_even_eq (x y : Q) :
  x == y -> round_half_even x = round_half_even y.
Proof.
  intros E. apply Z.le_antisymm; apply round_half_even_mono; rewrite E;
    apply Qle_refl.
Qed.

(** The integers below 2^53 are on the grid. *)
Lemma nearest_safe_integer (n : Z) :
  (0 < n < 2 ^ 53)%Z -> nearest (inject_Z n) == inject_Z n.
Proof.
  intros [Hn0 Hn53].
  assert (0 < inject_Z n) as Hq
    by (change 0 with (inject_Z 0); rewrite <- Zlt_Qlt; exact Hn0).
  assert (0 <= ilog2 (inject_Z n))%Z as Hlo.
  { change 0%Z with (ilog2 1). apply ilog2_mono; [reflexivity|].
    change 1 with (inject_Z 1). rewrite <- Zle_Qle. lia. }
  assert (ilog2 (inject_Z n) < 53)%Z as Hhi.
  { apply ilog2_lt; [exact Hq|]. rewrite <- (pow2_inject 53) by lia.
    rewrite <- Zlt_Qlt. exact Hn53. }
  unfold nearest. set (e := ulp_exp (inject_Z n)).
  assert (-52 <= e <= 0)%Z as He by (subst e; unfold ulp_exp; lia).
  pose proof (pow2_pos e) as Hpe.
  assert (2 ^ e * inject_Z (2 ^ (- e)) == 1) as Hinv.
  { rewrite pow2_inject by lia. rewrite <- pow2_add.
    replace (e + - e)%Z with 0%Z by lia. reflexivity. }
  assert (inject_Z n / 2 ^ e == inject_Z (n * 2 ^ (- e))) as Hs.
  { rewrite inject_Z_mult. set (u := inject_Z (2 ^ (- e))) in *.
    transitivity (inject_Z n * (2 ^ e * u) / 2 ^ e).
    - rewrite Hinv. field. lra.
    - field. lra. }
  rewrite (round_half_even_eq _ _ Hs), round_half_even_Z, <- Hs.
  field. lra.
Qed.

(** A representable lower bound survives rounding. *)
Lemma roundTiesToEven_lower (c q : Q) :
  0 < c -> nearest c == c -> c <= q -> at_least c (roundTiesToEven false q).
Proof.
  intros Hc Hfix Hcq.
  assert (0 <= q) as Hq0 by lra.
  destruct (roundTiesToEven_cases q Hq0) as [[E0 E] | [[Hq [_ E]] | [_ [_ E]]]];
    rewrite E; cbn [at_least]; [lra | | exact I].
  rewrite <- Hfix. apply nearest_mono; assumption.
Qed.

Lemma nearest_1 : nearest 1 == 1.
Proof. apply Qeq_bool_iff. vm_compute. reflexivity. Qed.

Lemma nearest_100 : nearest 100 == 100.
Proof. apply Qeq_bool_iff. vm_compute. reflexivity. Qed.

Lemma two_le_pow1024 : 2 <= 2 ^ 1024.
Proof. change 2 with (2 ^ 1) at 1. apply pow2_le. lia. Qed.

(** The model's [of_Z z] is a genuine double for every z from 0 to below
    2^53: every count the component can be given. *)
Lemma safe_integer_is_double (z : Z) :
  (0 <= z < 2 ^ 53)%Z -> is_double (of_Z z) = true.
Proof.
  intros [H0 H53]. rewrite of_Z_nonneg by exact H0. unfold is_double.
  assert (0 <= inject_Z z) as Hq0
    by (change 0 with (inject_Z 0); rewrite <- Zle_Qle; exact H0).
  destruct (roundTiesToEven_cases _ Hq0) as [[E0 E] | [[Hq [_ E]] | [Hq [Hinf _]]]].
  - rewrite E. apply Qeq_bool_iff. exact E0.
  - rewrite E. apply Qeq_bool_iff. symmetry. apply nearest_safe_integer.
    change 0 with (inject_Z 0) in Hq. rewrite <- Zlt_Qlt in Hq. lia.
  - exfalso.
    assert (0 < z)%Z as Hz
      by (change 0 with (inject_Z 0) in Hq; rewrite <- Zlt_Qlt in Hq; exact Hq).
    rewrite nearest_safe_integer in Hinf by lia.
    assert (inject_Z z < 2 ^ 53) as Hlt
      by (rewrite <- (pow2_inject 53) by lia; rewrite <- Zlt_Qlt; exact H53).
    assert (2 ^ 53 <= 2 ^ 1024) by (apply pow2_le; lia).
    lra.
Qed.

Lemma Math_min_100_fin (a : Q) :
  Math_min (Fin false a) (of_Z 100)
  = if Qle_bool 100 a then of_Z 100 else Fin false a.
Proof.
  change (of_Z 100) with (Fin false 100).
  unfold Math_min, ltb, signed.
  destruct (Qle_bool 100 a); cbn [negb]; [|reflexivity].
  destruct (negb (Qle_bool a 100)); reflexivity.
Qed.

Lemma Math_min_100_Z (k : Z) :
  (0 <= k)%Z ->
  Math_min (Fin false (inject_Z k)) (of_Z 100) = of_Z (Z.min k 100).
Proof.
  intros Hk. rewrite Math_min_100_fin.
  destruct (Qle_bool 100 (inject_Z k)) eqn:E.
  - apply Qle_bool_iff in E. change 100 with (inject_Z 100) in E.
    rewrite <- Zle_Qle in E. rewrite Z.min_r by exact E. reflexivity.
  - apply Qle_bool_false in E. change 100 with (inject_Z 100) in E.
    rewrite <- Zlt_Qlt in E. rewrite Z.min_l by lia.
    rewrite of_Z_nonneg by exact Hk. reflexivity.
Qed.

Lemma le_nn_Math_min_100 (x y : number) :
  le_nn x y -> le_nn (Math_min x (of_Z 100)) (Math_min y (of_Z 100)).
Proof.
  intros H. destruct H as [a b Ha Hab | a Ha |].
  - rewrite !Math_min_100_fin. change (of_Z 100) with (Fin false 100).
    destruct (Qle_bool 100 a) eqn:Ea; destruct (Qle_bool 100 b) eqn:Eb;
      try apply Qle_bool_iff in Ea; try apply Qle_bool_iff in Eb;
      try apply Qle_bool_false in Ea; try apply Qle_bool_false in Eb;
      constructor; lra.
  - rewrite Math_min_100_fin. change (of_Z 100) with (Fin false 100).
    change (Math_min (Infinity false) (Fin false 100)) with (Fin false 100).
    destruct (Qle_bool 100 a) eqn:Ea;
      try apply Qle_bool_iff in Ea; try apply Qle_bool_false in Ea;
      constructor; lra.
  - change (Math_min (Infinity false) (of_Z 100)) with (Fin false 100).
    constructor; lra.
Qed.

Lemma le_nn_geb (x y : number) : le_nn x y -> geb y x = true.
Proof.
  intros H. destruct H as [a b Ha Hab | a Ha |]; cbn; [|reflexivity..].
  rewrite negb_involutive. apply Qle_bool_iff. exact Hab.
Qed.

End NumberFacts.

(** * Facts about the classifier *)

Module ClassifierFacts.

Import NumberFacts.
Local Open Scope Q_scope.

Lemma inject_Z_pos (t : Z) : (0 < t)%Z -> 0 < inject_Z t.
Proof. intros H. change 0 with (inject_Z 0). rewrite <- Zlt_Qlt. exact H. Qed.

Lemma inject_Z_nonneg (p : Z) : (0 <= p)%Z -> 0 <= inject_Z p.
Proof. intros H. change 0 with (inject_Z 0). rewrite <- Zle_Qle. exact H. Qed.

Lemma divide_of_Z (p t : Z) :
  (0 <= p)%Z -> (0 < t)%Z ->
  divide (of_Z p) (of_Z t) = roundTiesToEven false (inject_Z p / inject_Z t).
Proof.
  intros Hp Ht. rewrite (of_Z_nonneg p) by exact Hp.
  rewrite (of_Z_nonneg t) by lia. cbn [divide xorb].
  destruct (Qeq_bool (inject_Z t) 0) eqn:E; [|reflexivity].
  apply Qeq_bool_iff in E. pose proof (inject_Z_pos t Ht). exfalso. lra.
Qed.

Lemma quotient_nonneg (p t : Z) :
  (0 <= p)%Z -> (0 < t)%Z -> 0 <= inject_Z p / inject_Z t.
Proof.
  intros Hp Ht. apply Qle_shift_div_l; [apply inject_Z_pos, Ht|].
  rewrite Qmult_0_l. apply inject_Z_nonneg, Hp.
Qed.

Lemma quotient_mono (p1 p2 t : Z) :
  (p1 <= p2)%Z -> (0 < t)%Z ->
  inject_Z p1 / inject_Z t <= inject_Z p2 / inject_Z t.
Proof.
  intros Hp Ht. apply Qmult_le_compat_r.
  - rewrite <- Zle_Qle. exact Hp.
  - apply Qlt_le_weak, Qinv_lt_0_compat, inject_Z_pos, Ht.
Qed.

(** The percentage grows with the progress, as Numbers. *)
Lemma percentage_le_nn (p1 p2 t : Z) :
  (0 <= p1)%Z -> (p1 <= p2)%Z -> (0 < t)%Z ->
  le_nn (getProgressPercentage (of_Z p1) (of_Z t))
        (getProgressPercentage (of_Z p2) (of_Z t)).
Proof.
  intros H1 H12 Ht. unfold getProgressPercentage.
  apply le_nn_Math_min_100, le_nn_Math_round, le_nn_multiply_100.
  rewrite !divide_of_Z by lia.
  apply roundTiesToEven_mono;
    [apply quotient_nonneg; lia | apply quotient_mono; assumption].
Qed.

(** From the target on, the percentage is 100. *)
Lemma percentage_full (p t : Z) :
  (0 < t)%Z -> (t <= p)%Z ->
  getProgressPercentage (of_Z p) (of_Z t) = of_Z 100.
Proof.
  intros Ht Htp. unfold getProgressPercentage.
  rewrite divide_of_Z by lia.
  assert (1 <= inject_Z p / inject_Z t) as Hq.
  { apply Qle_shift_div_l; [apply inject_Z_pos, Ht|].
    rewrite Qmult_1_l, <- Zle_Qle. exact Htp. }
  pose proof (roundTiesToEven_lower 1 _ eq_refl nearest_1 Hq) as H1.
  destruct (roundTiesToEven false (inject_Z p / inject_Z t)) as [| [|] | [|] v];
    cbn [at_least] in H1; try contradiction; [reflexivity|].
  change (of_Z 100) with (Fin false 100) at 1. cbn [multiply xorb].
  assert (100 <= v * 100) as Hv by lra.
  pose proof (roundTiesToEven_lower 100 _ eq_refl nearest_100 Hv) as H2.
  destruct (roundTiesToEven false (v * 100)) as [| [|] | [|] w];
    cbn [at_least] in H2; try contradiction; [reflexivity|].
  cbn [Math_round].
  assert (100 <= Qfloor (w + (1 # 2)))%Z as Hm
    by (apply floor_ge; change (inject_Z 100) with 100; lra).
  rewrite Math_min_100_Z by lia. rewrite Z.min_r by exact Hm. reflexivity.
Qed.

(** The percentage is an integer between 0 and 100. *)
Lemma percentage_of_product (y : number) :
  le_nn y y ->
  exists k : Z,
    Math_min (Math_round y) (of_Z 100) = of_Z k /\ (0 <= k <= 100)%Z /\
    match y with
    | Fin _ v => k = Z.min (Qfloor (v + (1 # 2))) 100
    | _ => k = 100%Z
    end.
Proof.
  intros H. inversion H as [a b Ha Hab E1 E2 | a Ha E1 E2 | E1 E2]; subst.
  - cbn [Math_round].
    assert (0 <= Qfloor (a + (1 # 2)))%Z as Hm
      by (apply floor_ge; change (inject_Z 0) with 0; lra).
    exists (Z.min (Qfloor (a + (1 # 2))) 100).
    split; [apply Math_min_100_Z, Hm | split; [lia | reflexivity]].
  - exists 100%Z. split; [reflexivity | split; [lia | reflexivity]].
Qed.

Lemma product_nn (p t : Z) :
  (0 <= p)%Z -> (0 < t)%Z ->
  let y := multiply (divide (of_Z p) (of_Z t)) (of_Z 100) in le_nn y y.
Proof.
  intros Hp Ht y. subst y. apply le_nn_multiply_100.
  rewrite divide_of_Z by lia.
  apply roundTiesToEven_mono; [apply quotient_nonneg; lia | apply Qle_refl].
Qed.

Lemma pow7_le_pow1024 : 128 <= 2 ^ 1024.
Proof. change 128 with (2 ^ 7). apply pow2_le. lia. Qed.

Lemma exact_percentage_eq (p t : Z) :
  (0 < t)%Z ->
  inject_Z (100 * p) / inject_Z t == 100 * (inject_Z p / inject_Z t).
Proof.
  intros Ht. pose proof (inject_Z_pos t Ht).
  rewrite inject_Z_mult. change (inject_Z 100) with 100. field. lra.
Qed.

(** Below the target, [(current / target) * 100] is finite and within 2^-46
    of the exact percentage. *)
Lemma product_close (p t : Z) :
  (0 <= p)%Z -> (p < t)%Z ->
  exists v : Q,
    multiply (divide (of_Z p) (of_Z t)) (of_Z 100) = Fin false v /\
    0 <= v /\
    inject_Z (100 * p) / inject_Z t - tie_margin <= v /\
    v <= inject_Z (100 * p) / inject_Z t + tie_margin.
Proof.
  intros Hp Hpt. assert (0 < t)%Z as Ht by lia. unfold tie_margin.
  pose proof (exact_percentage_eq p t Ht) as Hx.
  rewrite divide_of_Z by lia.
  pose proof (quotient_nonneg p t Hp Ht) as Ha0.
  assert (inject_Z p / inject_Z t < 1) as Ha1.
  { apply Qlt_shift_div_r; [apply inject_Z_pos, Ht|].
    rewrite Qmult_1_l, <- Zlt_Qlt. exact Hpt. }
  set (a := inject_Z p / inject_Z t) in *.
  set (x := inject_Z (100 * p) / inject_Z t) in *.
  change (of_Z 100) with (Fin false 100).
  pose proof two_le_pow1024 as H2. pose proof pow7_le_pow1024 as H7.
  destruct (roundTiesToEven_cases a Ha0) as [[E0 E] | [[Hq [_ E]] | [Hq [Hinf _]]]].
  - rewrite E. exists 0. split; [reflexivity|]. lra.
  - rewrite E. cbn [multiply xorb].
    destruct (nearest_error_below a 0 Hq Ha1 ltac:(lia)) as [HL HU].
    change (2 ^ (0 - 54)) with (1 # 18014398509481984) in HL, HU.
    pose proof (nearest_nonneg a Hq) as Hr0.
    assert (nearest a <= 1) as Hr1
      by (rewrite <- nearest_1; apply nearest_mono; [exact Hq | lra]).
    set (r := nearest a) in *.
    assert (0 <= r * 100) as Hp0 by lra.
    destruct (roundTiesToEven_cases (r * 100) Hp0)
      as [[E0' E'] | [[Hq' [_ E']] | [Hq' [Hinf' _]]]].
    + rewrite E'. exists 0. split; [reflexivity|]. lra.
    + rewrite E'. exists (nearest (r * 100)).
      split; [reflexivity|]. split; [apply nearest_nonneg, Hq'|].
      assert (r * 100 < 2 ^ 7) as H128 by (change (2 ^ 7) with 128; lra).
      destruct (nearest_error_below (r * 100) 7 Hq' H128 ltac:(lia)) as [HL' HU'].
      change (2 ^ (7 - 54)) with (1 # 140737488355328) in HL', HU'.
      lra.
    + exfalso.
      assert (r * 100 < 2 ^ 7) as H128 by (change (2 ^ 7) with 128; lra).
      destruct (nearest_error_below (r * 100) 7 Hq' H128 ltac:(lia)) as [_ HU'].
      change (2 ^ (7 - 54)) with (1 # 140737488355328) in HU'.
      lra.
  - exfalso.
    destruct (nearest_error_below a 0 Hq Ha1 ltac:(lia)) as [_ HU].
    change (2 ^ (0 - 54)) with (1 # 18014398509481984) in HU. lra.
Qed.

(** Both roundings of the specification stay within one half of their
    argument. *)
Lemma round_half_away_near (x : Q) :
  0 <= x ->
  x - (1 # 2) <= inject_Z (round_half_away x) /\
  inject_Z (round_half_away x) <= x + (1 # 2).
Proof.
  intros Hx. unfold round_half_away.
  replace (Qle_bool 0 x) with true by (symmetry; apply Qle_bool_iff, Hx).
  destruct (floor_bounds (x + (1 # 2))) as [HL HU]. split; lra.
Qed.

Lemma Z_of_Q_lt (m n : Z) : inject_Z m < inject_Z n + 1 -> (m <= n)%Z.
Proof.
  intros H. change 1 with (inject_Z 1) in H. rewrite <- inject_Z_plus in H.
  rewrite <- Zlt_Qlt in H. lia.
Qed.

(** The code's percentage against a rounding [rnd] of the exact quotient
    that stays within one half of it. *)
Lemma percentage_vs_rounding (rnd : Q -> Z) (p t k : Z) :
  (forall x, 0 <= x ->
     x - (1 # 2) <= inject_Z (rnd x) /\ inject_Z (rnd x) <= x + (1 # 2)) ->
  (0 <= p)%Z -> (0 < t)%Z ->
  getProgressPercentage (of_Z p) (of_Z t) = of_Z k -> (0 <= k)%Z ->
  (Z.abs (k - percentage_spec rnd p t) <= 1)%Z /\
  forall M : Z,
    inject_Z M - (1 # 2) + tie_margin <= inject_Z (100 * p) / inject_Z t ->
    inject_Z (100 * p) / inject_Z t < inject_Z M + (1 # 2) - tie_margin ->
    k = percentage_spec rnd p t.
Proof.
  intros Hrnd Hp Ht Hk Hk0. unfold percentage_spec, tie_margin.
  assert (0 <= inject_Z (100 * p) / inject_Z t) as Hx0
    by (apply quotient_nonneg; lia).
  destruct (Hrnd _ Hx0) as [HnL HnU].
  set (x := inject_Z (100 * p) / inject_Z t) in *. set (n := rnd x) in *.
  assert (0 <= n)%Z as Hn0.
  { apply Z_of_Q_lt. change (inject_Z 0) with 0. lra. }
  rewrite Z.max_l by exact Hn0.
  destruct (Z_le_gt_dec t p) as [Hfull | Hbelow].
  - rewrite percentage_full in Hk by assumption.
    rewrite !of_Z_nonneg in Hk by lia.
    assert (k = 100)%Z as -> by (injection Hk as Hk; lia).
    assert (100 <= x) as Hx.
    { subst x. apply Qle_shift_div_l; [apply inject_Z_pos, Ht|].
      change 100 with (inject_Z 100). rewrite <- inject_Z_mult, <- Zle_Qle. lia. }
    assert (100 <= n)%Z as Hn.
    { apply Z_of_Q_lt. change (inject_Z 100) with 100. lra. }
    rewrite Z.min_r by exact Hn. split; [lia | reflexivity].
  - destruct (product_close p t Hp ltac:(lia)) as (v & Ey & Hv0 & HvL & HvU).
    unfold tie_margin in HvL, HvU. fold x in HvL, HvU.
    unfold getProgressPercentage in Hk. rewrite Ey in Hk. cbn [Math_round] in Hk.
    destruct (floor_bounds (v + (1 # 2))) as [HmL HmU].
    set (m := Qfloor (v + (1 # 2))) in *.
    assert (0 <= m)%Z as Hm0.
    { apply Z_of_Q_lt. change (inject_Z 0) with 0. lra. }
    rewrite Math_min_100_Z in Hk by exact Hm0.
    rewrite !of_Z_nonneg in Hk by lia.
    assert (k = Z.min m 100) as -> by (injection Hk as Hk; lia).
    assert (m <= n + 1)%Z as H1.
    { apply Z_of_Q_lt. rewrite inject_Z_plus. change (inject_Z 1) with 1. lra. }
    assert (n <= m + 1)%Z as H2.
    { apply Z_of_Q_lt. rewrite inject_Z_plus. change (inject_Z 1) with 1. lra. }
    split; [lia|]. intros M HML HMU.
    assert (m = M) as ->.
    { apply Z.le_antisymm; apply Z_of_Q_lt; lra. }
    assert (n = M) as ->.
    { apply Z.le_antisymm; apply Z_of_Q_lt; lra. }
    reflexivity.
Qed.

Lemma signed_of_Z (z : Z) :
  signed (z <? 0)%Z (inject_Z (Z.abs z)) == inject_Z z.
Proof.
  destruct (Z.ltb_spec z 0) as [H | H]; cbn [signed].
  - rewrite Z.abs_neq by lia. rewrite inject_Z_opp. ring.
  - rewrite Z.abs_eq by lia. reflexivity.
Qed.

(** [>=] between integers is the order of the integers. *)
Lemma geb_of_Z (k c : Z) : geb (of_Z k) (of_Z c) = (c <=? k)%Z.
Proof.
  unfold geb, of_Z, ltb. rewrite negb_involutive.
  apply eq_true_iff_eq. rewrite Qle_bool_iff, !signed_of_Z, <- Zle_Qle.
  symmetry. apply Z.leb_le.
Qed.

End ClassifierFacts.

(** * Facts about goal selection *)

Module SelectionFacts.

Lemma GoalType_eqb_eq (a b : GoalType) : GoalType_eqb a b = true <-> a = b.
Proof. destruct a, b; cbn; split; intros H; congruence. Qed.

Lemma GoalType_eqb_neq (a b : GoalType) : GoalType_eqb a b = false <-> a <> b.
Proof. destruct a, b; cbn; split; intros H; congruence. Qed.

Lemma find_first_of_kind (k : GoalType) (goals : list Goal) (g : Goal) :
  first_of_kind k goals g ->
  find (fun g' => GoalType_eqb (type g') k) goals = Some g.
Proof.
  intros (before & after & -> & Hk & Hbefore).
  induction Hbefore as [| g' before Hg' _ IH]; cbn.
  - replace (GoalType_eqb (type g) k) with true
      by (symmetry; apply GoalType_eqb_eq, Hk).
    reflexivity.
  - replace (GoalType_eqb (type g') k) with false
      by (symmetry; apply GoalType_eqb_neq, Hg').
    exact IH.
Qed.

Lemma find_none_of_kind (k : GoalType) (goals : list Goal) :
  (forall g, In g goals -> type g <> k) ->
  find (fun g' => GoalType_eqb (type g') k) goals = None.
Proof.
  induction goals as [| g' goals IH]; intros H; cbn; [reflexivity|].
  replace (GoalType_eqb (type g') k) with false
    by (symmetry; apply GoalType_eqb_neq, H; left; reflexivity).
  apply IH. intros g Hg. apply H. right. exact Hg.
Qed.

(** What [StudentGoals] renders for one kind, from what [find] returns. *)
Lemma cards_of_kind_StudentGoals (goals : list Goal)
    (ct cw : option number) (k : GoalType) :
  goals <> [] ->
  cards_of_kind k (view_cards (StudentGoals (Some goals) ct cw))
  = match find (fun g' => GoalType_eqb (type g') k) goals with
    | Some g => [GoalCard g (progress_for k ct cw) k]
    | None => []
    end.
Proof.
  intros Hne. unfold StudentGoals.
  destruct goals as [| g0 goals]; [congruence|].
  cbn [length Nat.eqb view_cards].
  set (l := g0 :: goals).
  destruct k;
    destruct (find (fun g => GoalType_eqb (type g) daily) l);
    destruct (find (fun g => GoalType_eqb (type g) weekly) l);
    reflexivity.
Qed.

End SelectionFacts.

(** * Facts about the query client *)

Module ClientFacts.

Lemma lookup_invalidateQueries (key k : list string) (c : Client) :
  queries (invalidateQueries key c) !! k
  = (fun q => if bool_decide (key `prefix_of` k) then invalidate q else q)
      <$> (queries c !! k).
Proof.
  unfold invalidateQueries. cbn [queries].
  rewrite map_lookup_imap. destruct (queries c !! k); reflexivity.
Qed.

Lemma goalsKey_not_prefix_today (r : string) :
  ~ goalsKey r `prefix_of` todayKey r.
Proof. intros [k E]. unfold goalsKey, todayKey in E. cbn in E. congruence. Qed.

Lemma goalsKey_not_prefix_week (r : string) :
  ~ goalsKey r `prefix_of` weekKey r.
Proof. intros [k E]. unfold goalsKey, weekKey in E. cbn in E. congruence. Qed.

Lemma queries_onSuccess (r : string) (c : Client) (k : list string) :
  queries (onSuccess r c) !! k
  = (fun q => if bool_decide (goalsKey r `prefix_of` k) then invalidate q else q)
      <$> (queries c !! k).
Proof. unfold onSuccess, toast. cbn [queries]. apply lookup_invalidateQueries. Qed.

Lemma queries_onSuccess_other (r : string) (c : Client) (k : list string) :
  ~ goalsKey r `prefix_of` k ->
  queries (onSuccess r c) !! k = queries c !! k.
Proof.
  intros H. rewrite queries_onSuccess. rewrite bool_decide_eq_false_2 by exact H.
  destruct (queries c !! k); reflexivity.
Qed.

End ClientFacts.

(** * The properties of the component *)

Import NumberFacts ClassifierFacts SelectionFacts ClientFacts.

(** ** The rounding model and SpecFloat agree on the sample quotients *)

Example b64_agrees_23_40 :
  same_number (of_spec_float (b64_ratio100 23 40))
              (multiply (divide (of_Z 23) (of_Z 40)) (of_Z 100)) = true.
Proof. vm_compute. reflexivity. Qed.

(** Every quotient of counts from 0 to 64. *)
Example b64_agrees_grid :
  forallb (fun p =>
             forallb (fun t =>
                        same_number
                          (of_spec_float (b64_ratio100 p t))
                          (multiply (divide (of_Z p) (of_Z t)) (of_Z 100)))
                     (map Z.of_nat (seq 0 65)))
          (map Z.of_nat (seq 0 65)) = true.
Proof. vm_compute. reflexivity. Qed.

(** Ties, subnormal quotients, and overflow of the product. *)
Example b64_agrees_samples :
  forallb (fun '(p, t) =>
             same_number (of_spec_float (b64_ratio100 p t))
                         (multiply (divide (of_Z p) (of_Z t)) (of_Z 100)))
          [(49, 100); (50, 100); (75, 100); (1, 3); (2, 3); (0, 5); (5, 0);
           (0, 0); (7, 700); (199, 200); (1, 2 ^ 60); (2 ^ 70, 3);
           (1, 2 ^ 1023); (2 ^ 1023, 1); (2 ^ 1020, 3)]%Z = true.
Proof. vm_compute. reflexivity. Qed.

(** ** The percentage *)

(** C1, as stated, fails: for progress 23 and target 40 the exact percentage
    is 57.5, which rounds to 58 whether ties go away from zero or to the even
    integer, but the double product [(23 / 40) * 100] is
    57.49999999999999 and [Math.round] gives 57. *)
Lemma percentage_tie_counterexample :
  is_double (of_Z 23) = true /\ is_double (of_Z 40) = true /\
  getProgressPercentage (of_Z 23) (of_Z 40) = of_Z 57 /\
  percentage_spec round_half_away 23 40 = 58%Z /\
  percentage_spec round_half_even 23 40 = 58%Z /\
  getProgressPercentage (of_Z 23) (of_Z 40)
    <> of_Z (percentage_spec round_half_away 23 40) /\
  getProgressPercentage (of_Z 23) (of_Z 40)
    <> of_Z (percentage_spec round_half_even 23 40).
Proof.
  repeat split; try (vm_compute; reflexivity); vm_compute; discriminate.
Qed.

(** C1, amended: for every non-negative integer progress and positive
    integer target the percentage is an integer k with 0 <= k <= 100; k is
    within 1 of clamp(round(100 * progress / target), 0, 100), for ties
    rounded away from zero and for ties rounded to even; and k equals that
    value whenever the exact quotient 100 * progress / target stays
    [tie_margin] = 2^-46 away from the ties, that is when it lies in
    [M - 1/2 + 2^-46, M + 1/2 - 2^-46) for an integer M. *)
Theorem percentage_near_clamped_round (p t : Z) :
  (0 <= p)%Z -> (0 < t)%Z ->
  exists k : Z,
    getProgressPercentage (of_Z p) (of_Z t) = of_Z k /\
    (0 <= k <= 100)%Z /\
    (Z.abs (k - percentage_spec round_half_away p t) <= 1)%Z /\
    (Z.abs (k - percentage_spec round_half_even p t) <= 1)%Z /\
    forall M : Z,
      (inject_Z M - (1 # 2) + tie_margin
         <= inject_Z (100 * p) / inject_Z t)%Q ->
      (inject_Z (100 * p) / inject_Z t
         < inject_Z M + (1 # 2) - tie_margin)%Q ->
      k = percentage_spec round_half_away p t /\
      k = percentage_spec round_half_even p t.
Proof.
  intros Hp Ht.
  destruct (percentage_of_product _ (product_nn p t Hp Ht)) as (k & Hk & Hk100 & _).
  fold (getProgressPercentage (of_Z p) (of_Z t)) in Hk.
  exists k. split; [exact Hk|]. split; [exact Hk100|].
  destruct (percentage_vs_rounding round_half_away p t k
              round_half_away_near Hp Ht Hk ltac:(lia)) as [Ha Ha'].
  destruct (percentage_vs_rounding round_half_even p t k
              (fun x _ => round_half_even_near x) Hp Ht Hk ltac:(lia)) as [He He'].
  split; [exact Ha|]. split; [exact He|].
  intros M HL HU. split; [apply (Ha' M) | apply (He' M)]; assumption.
Qed.

Lemma percentage_near_clamped_round_witness :
  exists k : Z,
    getProgressPercentage (of_Z 23) (of_Z 40) = of_Z k /\
    (0 <= k <= 100)%Z /\
    (Z.abs (k - percentage_spec round_half_away 23 40) <= 1)%Z /\
    (Z.abs (k - percentage_spec round_half_even 23 40) <= 1)%Z /\
    forall M : Z,
      (inject_Z M - (1 # 2) + tie_margin
         <= inject_Z (100 * 23) / inject_Z 40)%Q ->
      (inject_Z (100 * 23) / inject_Z 40
         < inject_Z M + (1 # 2) - tie_margin)%Q ->
      k = percentage_spec round_half_away 23 40 /\
      k = percentage_spec round_half_even 23 40.
Proof.
  apply (percentage_near_clamped_round 23 40); lia.
Defined.

(** C2: for all progress >= target > 0 the percentage is 100 and the status
    is "Completed"; and for every non-negative progress the percentage is at
    most 100. *)
Theorem over_achievement_completed (p t : Z) :
  (0 < t)%Z -> (0 <= p)%Z ->
  geb (of_Z 100) (getProgressPercentage (of_Z p) (of_Z t)) = true /\
  ((t <= p)%Z ->
   getProgressPercentage (of_Z p) (of_Z t) = of_Z 100 /\
   badge_label (getStatusBadge (getProgressPercentage (of_Z p) (of_Z t)))
   = "Completed").
Proof.
  intros Ht Hp. split.
  - destruct (percentage_of_product _ (product_nn p t Hp Ht)) as (k & Hk & Hk100 & _).
    fold (getProgressPercentage (of_Z p) (of_Z t)) in Hk.
    rewrite Hk, geb_of_Z. apply Z.leb_le. lia.
  - intros Htp. rewrite percentage_full by assumption.
    split; reflexivity.
Qed.

Lemma over_achievement_completed_witness :
  geb (of_Z 100) (getProgressPercentage (of_Z 12) (of_Z 10)) = true /\
  getProgressPercentage (of_Z 12) (of_Z 10) = of_Z 100 /\
  badge_label (getStatusBadge (getProgressPercentage (of_Z 12) (of_Z 10)))
  = "Completed".
Proof.
  destruct (over_achievement_completed 12 10 ltac:(lia) ltac:(lia)) as [H1 H2].
  split; [exact H1 | apply H2; lia].
Defined.

(** C10: for a fixed target > 0 the percentage is monotone non-decreasing in
    the progress, and from the target on it is constantly 100. *)
Theorem percentage_monotone (p1 p2 t : Z) :
  (0 <= p1)%Z -> (p1 <= p2)%Z -> (0 < t)%Z ->
  geb (getProgressPercentage (of_Z p2) (of_Z t))
      (getProgressPercentage (of_Z p1) (of_Z t)) = true /\
  (exists k1 k2 : Z,
     getProgressPercentage (of_Z p1) (of_Z t) = of_Z k1 /\
     getProgressPercentage (of_Z p2) (of_Z t) = of_Z k2 /\
     (0 <= k1 <= k2)%Z /\ (k2 <= 100)%Z) /\
  ((t <= p1)%Z ->
   getProgressPercentage (of_Z p1) (of_Z t) = of_Z 100 /\
   getProgressPercentage (of_Z p2) (of_Z t) = of_Z 100).
Proof.
  intros H1 H12 Ht.
  pose proof (le_nn_geb _ _ (percentage_le_nn p1 p2 t H1 H12 Ht)) as Hge.
  split; [exact Hge|]. split.
  - destruct (percentage_of_product _ (product_nn p1 t H1 Ht)) as (k1 & Hk1 & Hb1 & _).
    destruct (percentage_of_product _ (product_nn p2 t ltac:(lia) Ht))
      as (k2 & Hk2 & Hb2 & _).
    fold (getProgressPercentage (of_Z p1) (of_Z t)) in Hk1.
    fold (getProgressPercentage (of_Z p2) (of_Z t)) in Hk2.
    exists k1, k2. rewrite Hk1, Hk2, geb_of_Z in Hge. apply Z.leb_le in Hge.
    repeat split; try assumption; lia.
  - intros Htp. split; apply percentage_full; lia.
Qed.

Lemma percentage_monotone_witness :
  geb (getProgressPercentage (of_Z 55) (of_Z 40))
      (getProgressPercentage (of_Z 40) (of_Z 40)) = true /\
  getProgressPercentage (of_Z 40) (of_Z 40) = of_Z 100 /\
  getProgressPercentage (of_Z 55) (of_Z 40) = of_Z 100.
Proof.
  destruct (percentage_monotone 40 55 40 ltac:(lia) ltac:(lia) ltac:(lia))
    as (H1 & _ & H2).
  split; [exact H1 | apply H2; lia].
Defined.

(** ** The status tiers *)

(** C3: the status label is a total function of the percentage into four
    tiers, checked from the highest threshold down: "Completed" from 100,
    "Almost There" from 75 to below 100, "In Progress" from 50 to below 75,
    "Just Started" below 50 (and for NaN, which no threshold admits); with
    target 100, progress 75 gives "Almost There", 50 gives "In Progress" and
    49 gives "Just Started". *)
Theorem status_badge_tiers :
  (forall k : Z,
     let l := badge_label (getStatusBadge (of_Z k)) in
     (l = "Completed" <-> (100 <= k)%Z) /\
     (l = "Almost There" <-> (75 <= k < 100)%Z) /\
     (l = "In Progress" <-> (50 <= k < 75)%Z) /\
     (l = "Just Started" <-> (k < 50)%Z)) /\
  (forall x : number,
     In (badge_label (getStatusBadge x))
        ["Completed"; "Almost There"; "In Progress"; "Just Started"]) /\
  badge_label (getStatusBadge NaN) = "Just Started" /\
  badge_label (getStatusBadge (getProgressPercentage (of_Z 75) (of_Z 100)))
  = "Almost There" /\
  badge_label (getStatusBadge (getProgressPercentage (of_Z 50) (of_Z 100)))
  = "In Progress" /\
  badge_label (getStatusBadge (getProgressPercentage (of_Z 49) (of_Z 100)))
  = "Just Started".
Proof.
  split; [|split; [|repeat split; vm_compute; reflexivity]].
  - intros k l. subst l. unfold getStatusBadge.
    rewrite (geb_of_Z k 100), (geb_of_Z k 75), (geb_of_Z k 50).
    destruct (Z.leb_spec 100 k); [|destruct (Z.leb_spec 75 k);
      [|destruct (Z.leb_spec 50 k)]];
      cbn [badge_label]; repeat split; intros; try lia; try discriminate;
      reflexivity.
  - intros x. unfold getStatusBadge.
    destruct (geb x (of_Z 100)); [|destruct (geb x (of_Z 75));
      [|destruct (geb x (of_Z 50))]]; cbn; tauto.
Qed.

(** C5: the colour of the progress bar changes at the thresholds of the
    status label: "Completed" with green, "Almost There" with blue,
    "In Progress" with yellow, "Just Started" with slate, for every
    percentage. *)
Theorem color_matches_badge (percentage : number) :
  (badge_label (getStatusBadge percentage) = "Completed"
   <-> getStatusColor percentage = "bg-green-500") /\
  (badge_label (getStatusBadge percentage) = "Almost There"
   <-> getStatusColor percentage = "bg-blue-500") /\
  (badge_label (getStatusBadge percentage) = "In Progress"
   <-> getStatusColor percentage = "bg-yellow-500") /\
  (badge_label (getStatusBadge percentage) = "Just Started"
   <-> getStatusColor percentage = "bg-slate-400").
Proof.
  unfold getStatusBadge, getStatusColor.
  destruct (geb percentage (of_Z 100)); [|destruct (geb percentage (of_Z 75));
    [|destruct (geb percentage (of_Z 50))]];
    cbn [badge_label]; repeat split; intros; try discriminate; reflexivity.
Qed.

(** ** A target of zero *)

(** C4, as stated, fails: with target 0 and progress 0 the quotient 0 / 0 is
    NaN and the percentage is NaN, not a bounded integer; the card shows it
    as it is. *)
Lemma zero_target_nan :
  getProgressPercentage (of_Z 0) (of_Z 0) = NaN /\
  (~ exists k : Z, getProgressPercentage (of_Z 0) (of_Z 0) = of_Z k) /\
  card_percentage
    (GoalCard (mkGoal 1 daily (of_Z 0) (of_Z 0) "2025-01-01") (of_Z 0) daily)
  = NaN.
Proof.
  split; [reflexivity|]. split; [|reflexivity].
  intros [k Hk]. vm_compute in Hk. discriminate.
Qed.

(** C4, amended: with target 0 the classifier has no fallback of its own
    and is still total: a positive progress gives +Infinity, which
    [Math.min] bounds to 100 ("Completed"); progress 0 gives NaN, which is
    passed on as the percentage and falls in the last tier ("Just
    Started"); a negative progress gives -Infinity. *)
Theorem zero_target_percentage (p : Z) :
  getProgressPercentage (of_Z p) (of_Z 0)
  = match p with
    | Z0 => NaN
    | Zpos _ => of_Z 100
    | Zneg _ => Infinity true
    end /\
  badge_label (getStatusBadge (getProgressPercentage (of_Z p) (of_Z 0)))
  = match p with
    | Zpos _ => "Completed"
    | _ => "Just Started"
    end.
Proof. destruct p; split; reflexivity. Qed.

(** ** Goal selection and the empty state *)

(** C6: for every fetched sequence of goals and each kind, the view holds
    at most one card of that kind, the card of the first goal of that kind
    in the order of the sequence (fed with the counter of that kind); when
    the sequence has no goal of the kind, the view holds no card of it. *)
Theorem goal_selection_first_per_kind (goals : list Goal)
    (completed_today completed_week : option number) (k : GoalType) :
  let cards :=
    cards_of_kind k
      (view_cards (StudentGoals (Some goals) completed_today completed_week)) in
  (forall g : Goal,
     first_of_kind k goals g ->
     cards = [GoalCard g (progress_for k completed_today completed_week) k]) /\
  ((forall g : Goal, In g goals -> type g <> k) -> cards = []) /\
  (length cards <= 1)%nat.
Proof.
  intros cards. subst cards.
  destruct goals as [| g0 goals].
  - cbn. split; [|split; [reflexivity | lia]].
    intros g (before & after & E & _). destruct before; discriminate.
  - rewrite cards_of_kind_StudentGoals by discriminate.
    split; [|split].
    + intros g Hg. rewrite (find_first_of_kind k _ g Hg). reflexivity.
    + intros Hnone. rewrite find_none_of_kind by exact Hnone. reflexivity.
    + destruct (find _ (g0 :: goals)); cbn; lia.
Qed.

Lemma goal_selection_first_per_kind_witness :
  let w := mkGoal 3 weekly (of_Z 20) (of_Z 0) "2025-W01" in
  let d1 := mkGoal 1 daily (of_Z 10) (of_Z 0) "2025-01-01" in
  let d2 := mkGoal 2 daily (of_Z 5) (of_Z 0) "2025-01-02" in
  cards_of_kind daily
    (view_cards (StudentGoals (Some [w; d1; d2]) (Some (of_Z 10)) None))
  = [GoalCard d1 (of_Z 10) daily] /\
  cards_of_kind weekly
    (view_cards (StudentGoals (Some [d1; d2]) (Some (of_Z 10)) None))
  = [].
Proof.
  intros w d1 d2. split.
  - apply (proj1 (goal_selection_first_per_kind [w; d1; d2]
                    (Some (of_Z 10)) None daily) d1).
    exists [w], [d2]. split; [reflexivity|]. split; [reflexivity|].
    constructor; [discriminate | constructor].
  - apply (proj1 (proj2 (goal_selection_first_per_kind [d1; d2]
                           (Some (of_Z 10)) None weekly))).
    intros g [<- | [<- | []]]; discriminate.
Defined.

(** C9: an empty goal list and a goals read without data both render the
    empty state, with no goal card; the two are the same view. *)
Theorem absent_and_empty_goals_render_empty_state
    (completed_today completed_week : option number)
    (studentRegNo : string) (c : Client) :
  StudentGoals (Some []) completed_today completed_week = EmptyState /\
  StudentGoals None completed_today completed_week = EmptyState /\
  StudentGoals None completed_today completed_week
  = StudentGoals (Some []) completed_today completed_week /\
  view_cards (StudentGoals None completed_today completed_week) = [] /\
  (useQuery (goalsKey studentRegNo) c = None ->
   render studentRegNo c = EmptyState) /\
  (useQuery (goalsKey studentRegNo) c = Some (GoalsData []) ->
   render studentRegNo c = EmptyState).
Proof.
  repeat split; try reflexivity; intros H; unfold render; rewrite H; reflexivity.
Qed.

Lemma absent_and_empty_goals_render_empty_state_witness :
  render "21CS001" (mkClient ∅ [] []) = EmptyState /\
  render "21CS001"
    (mkClient {[ goalsKey "21CS001" := mkQuery (Some (GoalsData [])) false false ]}
              [] [])
  = EmptyState.
Proof.
  split.
  - destruct (absent_and_empty_goals_render_empty_state None None
                "21CS001" (mkClient ∅ [] [])) as (_ & _ & _ & _ & H & _).
    apply H. reflexivity.
  - destruct (absent_and_empty_goals_render_empty_state None None "21CS001"
                (mkClient
                   {[ goalsKey "21CS001"
                      := mkQuery (Some (GoalsData [])) false false ]}
                   [] [])) as (_ & _ & _ & _ & _ & H).
    apply H. unfold useQuery. cbn [queries].
    rewrite lookup_singleton_eq. reflexivity.
Defined.

(** ** The delete mutation *)

(** C7: when the delete request succeeds, the queries whose key starts with
    the goals key are marked invalidated and refetched, and only those: the
    today-progress and week-progress entries are left as they were; one
    "Goal Deleted" notification is shown. *)
Theorem delete_success_invalidates_goals_only
    (apiRequest : string -> string -> bool)
    (studentRegNo : string) (goalId : Z) (c : Client) :
  apiRequest "DELETE" (deleteUrl studentRegNo goalId) = true ->
  let c' := mutate apiRequest studentRegNo goalId c in
  (forall k : list string,
     queries c' !! k
     = (fun q => if bool_decide (goalsKey studentRegNo `prefix_of` k)
                 then invalidate q else q) <$> (queries c !! k)) /\
  queries c' !! goalsKey studentRegNo
  = invalidate <$> (queries c !! goalsKey studentRegNo) /\
  queries c' !! todayKey studentRegNo = queries c !! todayKey studentRegNo /\
  queries c' !! weekKey studentRegNo = queries c !! weekKey studentRegNo /\
  toasts c'
  = toasts c ++ [mkToast "Goal Deleted"
                         "Your goal has been deleted successfully." None] /\
  requests c'
  = requests c ++ [mkRequest "DELETE" (deleteUrl studentRegNo goalId)].
Proof.
  intros Hok c'. subst c'. unfold mutate. rewrite Hok.
  set (c1 := mkClient (queries c) (toasts c) _).
  split; [intros k; apply (queries_onSuccess studentRegNo c1 k)|].
  split.
  - rewrite (queries_onSuccess studentRegNo c1).
    rewrite bool_decide_eq_true_2 by reflexivity. reflexivity.
  - split; [apply (queries_onSuccess_other studentRegNo c1),
              goalsKey_not_prefix_today|].
    split; [apply (queries_onSuccess_other studentRegNo c1),
              goalsKey_not_prefix_week|].
    split; reflexivity.
Qed.

Lemma delete_success_invalidates_goals_only_witness :
  let g := mkGoal 1 daily (of_Z 10) (of_Z 0) "2025-01-01" in
  let c :=
    mkClient
      {[ goalsKey "21CS001" := mkQuery (Some (GoalsData [g])) false false;
         todayKey "21CS001"
           := mkQuery (Some (TodayProgress (of_Z 3))) false false ]}
      [] [] in
  let c' := mutate (fun _ _ => true) "21CS001" 1 c in
  queries c' !! goalsKey "21CS001"
  = invalidate <$> (queries c !! goalsKey "21CS001") /\
  queries c' !! todayKey "21CS001" = queries c !! todayKey "21CS001" /\
  toasts c'
  = [mkToast "Goal Deleted" "Your goal has been deleted successfully." None].
Proof.
  intros g c c'.
  destruct (delete_success_invalidates_goals_only
              (fun _ _ => true) "21CS001" 1 c eq_refl)
    as (_ & Hgoals & Htoday & _ & Htoasts & _).
  split; [exact Hgoals | split; [exact Htoday | exact Htoasts]].
Defined.

(** C8: when the delete request fails, one "Error" notification is shown
    and nothing else happens: no query is invalidated, the cache is the one
    from before the request (nothing was changed ahead of the answer, so
    nothing is rolled back), the request was sent once, and the component
    renders the same goals as before. *)
Theorem delete_failure_toast_only
    (apiRequest : string -> string -> bool)
    (studentRegNo : string) (goalId : Z) (c : Client) :
  apiRequest "DELETE" (deleteUrl studentRegNo goalId) = false ->
  let c' := mutate apiRequest studentRegNo goalId c in
  queries c' = queries c /\
  toasts c'
  = toasts c ++ [mkToast "Error" "Failed to delete goal. Please try again."
                         (Some "destructive")] /\
  requests c'
  = requests c ++ [mkRequest "DELETE" (deleteUrl studentRegNo goalId)] /\
  render studentRegNo c' = render studentRegNo c.
Proof.
  intros Hfail c'. subst c'. unfold mutate. rewrite Hfail.
  repeat split; reflexivity.
Qed.

Lemma delete_failure_toast_only_witness :
  let g := mkGoal 1 daily (of_Z 10) (of_Z 0) "2025-01-01" in
  let c :=
    mkClient
      {[ goalsKey "21CS001" := mkQuery (Some (GoalsData [g])) false false ]}
      [] [] in
  let c' := mutate (fun _ _ => false) "21CS001" 1 c in
  queries c' = queries c /\
  toasts c'
  = [mkToast "Error" "Failed to delete goal. Please try again."
             (Some "destructive")] /\
  requests c' = [mkRequest "DELETE" "/api/student/21CS001/goals/1"] /\
  render "21CS001" c' = render "21CS001" c.
Proof.
  intros g c c'.
  exact (delete_failure_toast_only (fun _ _ => false) "21CS001" 1 c eq_refl).
Defined.

(** * Further facts about Numbers and the classifier *)

Module EdgeFacts.

Local Open Scope Q_scope.

(** The sign is carried along by the rounding. *)
Lemma roundTiesToEven_sign (s : bool) (q : Q) :
  roundTiesToEven s q
  = match roundTiesToEven false q with
    | Fin _ v => Fin s v
    | Infinity _ => Infinity s
    | NaN => NaN
    end.
Proof.
  unfold roundTiesToEven. destruct (Qeq_bool q 0); [reflexivity|].
  destruct (Qle_bool (2 ^ 1024) (nearest q)); reflexivity.
Qed.

Lemma roundTiesToEven_not_NaN (s : bool) (q : Q) : roundTiesToEven s q <> NaN.
Proof.
  unfold roundTiesToEven. destruct (Qeq_bool q 0); [discriminate|].
  destruct (Qle_bool (2 ^ 1024) (nearest q)); discriminate.
Qed.

Lemma Math_min_100_not_NaN (x : number) :
  Math_min x (of_Z 100) = NaN <-> x = NaN.
Proof.
  change (of_Z 100) with (Fin false 100). split.
  - destruct x as [| s | s a]; [reflexivity | |]; unfold Math_min; intros H.
    + destruct (ltb (Infinity s) (Fin false 100));
        [|destruct (ltb (Fin false 100) (Infinity s))]; discriminate.
    + destruct (ltb (Fin s a) (Fin false 100));
        [|destruct (ltb (Fin false 100) (Fin s a)); [|destruct s]];
        discriminate.
  - intros ->. reflexivity.
Qed.

Lemma Math_round_not_NaN (x : number) : Math_round x = NaN <-> x = NaN.
Proof.
  split; [|intros ->; reflexivity].
  destruct x as [| s | [|] a]; cbn [Math_round]; intros H;
    try reflexivity; discriminate.
Qed.

Lemma multiply_100_not_NaN (d : number) :
  multiply d (of_Z 100) = NaN <-> d = NaN.
Proof.
  change (of_Z 100) with (Fin false 100). split; [|intros ->; reflexivity].
  destruct d as [| s | s a]; cbn [multiply]; intros H; [reflexivity | |].
  - change (Qeq_bool 100 0) with false in H. discriminate.
  - exfalso. exact (roundTiesToEven_not_NaN _ _ H).
Qed.

(** The percentage is NaN exactly when the quotient is. *)
Lemma percentage_NaN_iff_quotient (c t : number) :
  getProgressPercentage c t = NaN <-> divide c t = NaN.
Proof.
  unfold getProgressPercentage.
  rewrite Math_min_100_not_NaN, Math_round_not_NaN, multiply_100_not_NaN.
  reflexivity.
Qed.

Lemma divide_NaN_iff (c t : number) :
  divide c t = NaN <->
  c = NaN \/ t = NaN \/
  (isZero c = true /\ isZero t = true) \/
  (isInfinite c = true /\ isInfinite t = true).
Proof.
  destruct c as [| sc | sc a]; destruct t as [| st | st b];
    cbn [divide isZero isInfinite].
  1-5, 7: split; [intros _; tauto | intros _; reflexivity].
  - split; [discriminate | intuition discriminate].
  - split; [discriminate | intuition discriminate].
  - destruct (Qeq_bool b 0); [destruct (Qeq_bool a 0)|].
    + split; [intros _; tauto | reflexivity].
    + split; [discriminate | intuition discriminate].
    + split; [intros H; exfalso; exact (roundTiesToEven_not_NaN _ _ H)
             | intuition discriminate].
Qed.

Lemma or_zero_not_NaN (x : option number) : or_zero x <> NaN.
Proof.
  destruct x as [[| s | s q] |]; cbn; try discriminate.
  destruct (negb (Qeq_bool q 0)); discriminate.
Qed.

(** Whatever it is given, [Math.min(_, 100)] is NaN or at most 100. *)
Lemma Math_min_100_bound (x : number) :
  Math_min x (of_Z 100) = NaN \/
  geb (of_Z 100) (Math_min x (of_Z 100)) = true.
Proof.
  change (of_Z 100) with (Fin false 100).
  destruct x as [| [|] | s a]; [left; reflexivity | right; reflexivity
                               | right; reflexivity |].
  right. unfold Math_min, ltb.
  destruct (Qle_bool (signed false 100) (signed s a)) eqn:E1; cbn [negb].
  - destruct (Qle_bool (signed s a) (signed false 100)) eqn:E2; cbn [negb].
    + destruct s; unfold geb, ltb; rewrite ?E2, ?negb_involutive;
        reflexivity.
    + reflexivity.
  - unfold geb, ltb. rewrite negb_involutive. apply Qle_bool_iff.
    apply Qlt_le_weak, NumberFacts.Qle_bool_false, E1.
Qed.

(** No progress is 0 percent of any positive target. *)
Lemma percentage_zero (t : Z) :
  (0 < t)%Z -> getProgressPercentage (of_Z 0) (of_Z t) = of_Z 0.
Proof.
  intros Ht. unfold getProgressPercentage.
  rewrite ClassifierFacts.divide_of_Z by lia.
  assert (roundTiesToEven false (inject_Z 0 / inject_Z t) = Fin false 0) as ->.
  { unfold roundTiesToEven.
    replace (Qeq_bool (inject_Z 0 / inject_Z t) 0) with true; [reflexivity|].
    symmetry. apply Qeq_bool_iff.
    pose proof (ClassifierFacts.inject_Z_pos t Ht).
    change (inject_Z 0) with 0. field. lra. }
  reflexivity.
Qed.

(** A share of the target that is a double, and whose hundredfold is an
    integer double, guarantees that integer as percentage. *)
Lemma percentage_at_least (c : Q) (n p t : Z) :
  0 < c -> nearest c == c -> nearest (c * 100) == c * 100 ->
  c * 100 == inject_Z n ->
  (0 <= p)%Z -> (0 < t)%Z -> c <= inject_Z p / inject_Z t ->
  exists k : Z,
    getProgressPercentage (of_Z p) (of_Z t) = of_Z k /\
    (Z.min n 100 <= k <= 100)%Z.
Proof.
  intros Hc Hfix Hfix100 Hn Hp Ht Hshare.
  destruct (ClassifierFacts.percentage_of_product _
              (ClassifierFacts.product_nn p t Hp Ht)) as (k & Hk & Hk100 & Hy).
  fold (getProgressPercentage (of_Z p) (of_Z t)) in Hk.
  exists k. split; [exact Hk|]. split; [|lia].
  rewrite ClassifierFacts.divide_of_Z in Hy by lia.
  pose proof (NumberFacts.roundTiesToEven_lower c _ Hc Hfix Hshare) as H1.
  destruct (roundTiesToEven false (inject_Z p / inject_Z t)) as [| [|] | [|] v];
    cbn [at_least] in H1; try contradiction.
  - change (multiply (Infinity false) (of_Z 100)) with (Infinity false) in Hy.
    cbv beta iota in Hy. lia.
  - change (of_Z 100) with (Fin false 100) in Hy. cbn [multiply xorb] in Hy.
    assert (0 < c * 100) as Hc100 by lra.
    assert (c * 100 <= v * 100) as Hv by lra.
    pose proof (NumberFacts.roundTiesToEven_lower (c * 100) _ Hc100 Hfix100 Hv)
      as H2.
    destruct (roundTiesToEven false (v * 100)) as [| [|] | [|] w];
      cbn [at_least] in H2; try contradiction; cbv beta iota in Hy; [lia|].
    assert (n <= Qfloor (w + (1 # 2)))%Z as Hm
      by (apply NumberFacts.floor_ge; lra).
    lia.
Qed.

Lemma nearest_half : nearest (1 # 2) == 1 # 2.
Proof. apply Qeq_bool_iff. vm_compute. reflexivity. Qed.

Lemma nearest_50 : nearest ((1 # 2) * 100) == (1 # 2) * 100.
Proof. apply Qeq_bool_iff. vm_compute. reflexivity. Qed.

Lemma nearest_three_quarters : nearest (3 # 4) == 3 # 4.
Proof. apply Qeq_bool_iff. vm_compute. reflexivity. Qed.

Lemma nearest_75 : nearest ((3 # 4) * 100) == (3 # 4) * 100.
Proof. apply Qeq_bool_iff. vm_compute. reflexivity. Qed.

Lemma share_ge (a b p t : Z) :
  (0 < b)%Z -> (0 < t)%Z -> (a * t <= b * p)%Z ->
  inject_Z a / inject_Z b <= inject_Z p / inject_Z t.
Proof.
  intros Hb Ht H.
  pose proof (ClassifierFacts.inject_Z_pos b Hb) as HB.
  pose proof (ClassifierFacts.inject_Z_pos t Ht) as HT.
  apply Qle_shift_div_l; [exact HT|].
  apply Qmult_le_r with (z := inject_Z b); [exact HB|].
  rewrite Zle_Qle, !inject_Z_mult in H.
  assert (inject_Z a / inject_Z b * inject_Z t * inject_Z b
          == inject_Z a * inject_Z t) as E by (field; lra).
  rewrite E, (Qmult_comm (inject_Z p)). exact H.
Qed.

(** When the target divides 100 * progress, below the target, the
    percentage is the exact quotient. *)
Lemma percentage_exact (p t m : Z) :
  (0 <= p)%Z -> (0 < t)%Z -> (100 * p = m * t)%Z ->
  getProgressPercentage (of_Z p) (of_Z t) = of_Z (Z.min m 100).
Proof.
  intros Hp Ht Hm.
  assert (0 <= m)%Z as Hm0 by nia.
  destruct (ClassifierFacts.percentage_of_product _
              (ClassifierFacts.product_nn p t Hp Ht)) as (k & Hk & Hk100 & _).
  fold (getProgressPercentage (of_Z p) (of_Z t)) in Hk.
  pose proof (ClassifierFacts.inject_Z_pos t Ht) as HT.
  assert (inject_Z (100 * p) / inject_Z t == inject_Z m) as Hx.
  { rewrite Hm, inject_Z_mult. field. lra. }
  destruct (ClassifierFacts.percentage_vs_rounding round_half_away p t k
              ClassifierFacts.round_half_away_near Hp Ht Hk ltac:(lia))
    as [_ Heq].
  specialize (Heq m).
  rewrite Hx in Heq. unfold tie_margin in Heq.
  rewrite Hk, Heq by lra.
  unfold percentage_spec.
  assert (round_half_away (inject_Z (100 * p) / inject_Z t) = m) as ->.
  { assert (0 <= inject_Z (100 * p) / inject_Z t) as Hx0.
    { rewrite Hx. apply ClassifierFacts.inject_Z_nonneg, Hm0. }
    destruct (ClassifierFacts.round_half_away_near _ Hx0) as [HL HU].
    set (x := inject_Z (100 * p) / inject_Z t) in *.
    apply Z.le_antisymm; apply ClassifierFacts.Z_of_Q_lt; lra. }
  rewrite Z.max_l by exact Hm0. reflexivity.
Qed.

Lemma of_Z_neg (m : Z) : (0 < m)%Z -> of_Z (- m) = Fin true (inject_Z m).
Proof.
  intros H. unfold of_Z.
  replace (- m <? 0)%Z with true by (symmetry; apply Z.ltb_lt; lia).
  rewrite Z.abs_opp, Z.abs_eq by lia. reflexivity.
Qed.

(** Against a negative target nothing is clamped from below. *)
Lemma percentage_negative_target (p t : Z) :
  (t < 0)%Z -> (- t <= p)%Z ->
  getProgressPercentage (of_Z p) (of_Z t) = Infinity true \/
  exists m : Z,
    (100 <= m)%Z /\ getProgressPercentage (of_Z p) (of_Z t) = of_Z (- m).
Proof.
  intros Ht Hp. unfold getProgressPercentage.
  rewrite (NumberFacts.of_Z_nonneg p) by lia.
  replace t with (- - t)%Z by lia. rewrite (of_Z_neg (- t)) by lia.
  pose proof (ClassifierFacts.inject_Z_pos (- t) ltac:(lia)) as HT.
  cbn [divide xorb].
  replace (Qeq_bool (inject_Z (- t)) 0) with false
    by (symmetry; apply not_true_iff_false; intros E;
        apply Qeq_bool_iff in E; lra).
  rewrite (roundTiesToEven_sign true).
  assert (1 <= inject_Z p / inject_Z (- t)) as Hq.
  { apply Qle_shift_div_l; [exact HT|].
    rewrite Qmult_1_l, <- Zle_Qle. exact Hp. }
  pose proof (NumberFacts.roundTiesToEven_lower 1 _ eq_refl
                NumberFacts.nearest_1 Hq) as H1.
  destruct (roundTiesToEven false (inject_Z p / inject_Z (- t)))
    as [| [|] | [|] v]; cbn [at_least] in H1; try contradiction;
    [left; reflexivity|].
  change (of_Z 100) with (Fin false 100). cbn [multiply xorb].
  rewrite (roundTiesToEven_sign true).
  assert (100 <= v * 100) as Hv by lra.
  pose proof (NumberFacts.roundTiesToEven_lower 100 _ eq_refl
                NumberFacts.nearest_100 Hv) as H2.
  destruct (roundTiesToEven false (v * 100)) as [| [|] | [|] w];
    cbn [at_least] in H2; try contradiction; [left; reflexivity|].
  right. cbn [Math_round].
  destruct (NumberFacts.floor_bounds (- w + (1 # 2))) as [HL HU].
  set (f := Qfloor (- w + (1 # 2))) in *.
  assert (f <= -100)%Z as Hf.
  { assert (f + 100 <= 0)%Z; [|lia]. apply ClassifierFacts.Z_of_Q_lt.
    rewrite inject_Z_plus. change (inject_Z 100) with 100.
    change (inject_Z 0) with 0. lra. }
  exists (- f)%Z. split; [lia|].
  rewrite of_Z_neg by lia.
  change (of_Z 100) with (Fin false 100).
  unfold Math_min, ltb, signed.
  replace (Qle_bool 100 (- inject_Z (- f))) with false; [reflexivity|].
  symmetry. apply not_true_iff_false. intros E. apply Qle_bool_iff in E.
  rewrite inject_Z_opp in E. lra.
Qed.

(** ** Rounding depends on the value only *)




End EdgeFacts.

(** * Further facts about the view and the mutation *)

Module ViewFacts.

Lemma StudentGoals_nonempty (goals : list Goal) (ct cw : option number) :
  goals <> [] ->
  StudentGoals (Some goals) ct cw
  = GoalCards
      (and_render (find (fun g => GoalType_eqb (type g) daily) goals)
         (fun g => GoalCard g (or_zero ct) daily)
       ++ and_render (find (fun g => GoalType_eqb (type g) weekly) goals)
         (fun g => GoalCard g (or_zero cw) weekly)).
Proof.
  intros H. destruct goals as [| g0 goals]; [congruence | reflexivity].
Qed.

(** A non-empty list has a first goal of one of the two kinds. *)
Lemma find_some_kind (goals : list Goal) :
  goals <> [] ->
  find (fun g => GoalType_eqb (type g) daily) goals <> None \/
  find (fun g => GoalType_eqb (type g) weekly) goals <> None.
Proof.
  intros H. destruct goals as [| g0 goals]; [congruence|]. cbn [find].
  destruct (type g0); cbn [GoalType_eqb]; [left | right]; discriminate.
Qed.

Lemma useQuery_mutate (apiRequest : string -> string -> bool)
    (r : string) (goalId : Z) (c : Client) (k : list string) :
  useQuery k (mutate apiRequest r goalId c) = useQuery k c.
Proof.
  unfold mutate, useQuery.
  destruct (apiRequest "DELETE" (deleteUrl r goalId)); [|reflexivity].
  rewrite ClientFacts.queries_onSuccess. cbn [queries].
  destruct (queries c !! k) as [q |]; cbn; [|reflexivity].
  destruct (bool_decide (goalsKey r `prefix_of` k)); reflexivity.
Qed.

End ViewFacts.

(** * Further properties of the component *)

Import EdgeFacts ViewFacts.

(** ** The classifier on every input *)

(** X1: when the progress read has no data, or its counter is falsy (NaN,
    +0 or -0), [|| 0] makes the progress 0 and, for every positive integer
    target, the percentage is 0 and the status "Just Started". *)
Theorem falsy_progress_shows_zero (x : option number) (t : Z) :
  (0 < t)%Z ->
  (x = None \/ exists n : number, x = Some n /\ truthy n = false) ->
  getProgressPercentage (or_zero x) (of_Z t) = of_Z 0 /\
  badge_label (getStatusBadge (getProgressPercentage (or_zero x) (of_Z t)))
  = "Just Started".
Proof.
  intros Ht Hx.
  assert (or_zero x = of_Z 0) as ->.
  { destruct Hx as [-> | (n & -> & Hn)]; [reflexivity|].
    unfold or_zero. rewrite Hn. reflexivity. }
  rewrite percentage_zero by exact Ht. split; reflexivity.
Qed.

Lemma falsy_progress_shows_zero_witness :
  getProgressPercentage (or_zero (Some NaN)) (of_Z 10) = of_Z 0 /\
  badge_label
    (getStatusBadge (getProgressPercentage (or_zero (Some NaN)) (of_Z 10)))
  = "Just Started".
Proof.
  apply (falsy_progress_shows_zero (Some NaN) 10); [lia|].
  right. exists NaN. split; reflexivity.
Defined.

(** X2: the percentage is NaN exactly when an argument is NaN, or both are
    zero, or both are infinite. *)
Theorem percentage_nan_cases (current target : number) :
  getProgressPercentage current target = NaN <->
  current = NaN \/ target = NaN \/
  (isZero current = true /\ isZero target = true) \/
  (isInfinite current = true /\ isInfinite target = true).
Proof.
  rewrite percentage_NaN_iff_quotient. apply divide_NaN_iff.
Qed.

(** X3: a card whose goal has a finite, non-zero target never shows NaN,
    whatever the progress read returned: its counter goes through [|| 0]. *)
Theorem card_percentage_not_nan (x : option number) (g : Goal)
    (ty : GoalType) :
  target g <> NaN -> isZero (target g) = false ->
  isInfinite (target g) = false ->
  card_percentage (GoalCard g (or_zero x) ty) <> NaN.
Proof.
  intros Hnan Hzero Hinf. cbn [GoalCard card_percentage]. intros H.
  apply percentage_NaN_iff_quotient, divide_NaN_iff in H.
  destruct H as [H | [H | [[_ H] | [_ H]]]].
  - exact (or_zero_not_NaN x H).
  - exact (Hnan H).
  - congruence.
  - congruence.
Qed.

Lemma card_percentage_not_nan_witness :
  card_percentage
    (GoalCard (mkGoal 1 daily (of_Z 10) (of_Z 0) "2025-01-01")
              (or_zero (Some NaN)) daily)
  <> NaN /\
  card_percentage
    (GoalCard (mkGoal 1 daily (of_Z 10) (of_Z 0) "2025-01-01")
              (or_zero (Some NaN)) daily)
  = of_Z 0.
Proof.
  split; [|reflexivity].
  apply (card_percentage_not_nan (Some NaN)
           (mkGoal 1 daily (of_Z 10) (of_Z 0) "2025-01-01") daily);
    [discriminate | reflexivity | reflexivity].
Defined.

(** X4: whatever Numbers it is given, the percentage is NaN or at most
    100. *)
Theorem percentage_never_above_100 (current target : number) :
  getProgressPercentage current target = NaN \/
  geb (of_Z 100) (getProgressPercentage current target) = true.
Proof. unfold getProgressPercentage. apply Math_min_100_bound. Qed.

(** X5: there is no clamp from below: against a negative integer target, a
    progress of at least its absolute value gives -Infinity or an integer
    percentage of -100 or less, below 0, with status "Just Started". *)
Theorem negative_target_not_clamped (p t : Z) :
  (t < 0)%Z -> (- t <= p)%Z ->
  (getProgressPercentage (of_Z p) (of_Z t) = Infinity true \/
   exists m : Z,
     (100 <= m)%Z /\ getProgressPercentage (of_Z p) (of_Z t) = of_Z (- m)) /\
  geb (getProgressPercentage (of_Z p) (of_Z t)) (of_Z 0) = false /\
  badge_label (getStatusBadge (getProgressPercentage (of_Z p) (of_Z t)))
  = "Just Started".
Proof.
  intros Ht Hp.
  pose proof (percentage_negative_target p t Ht Hp) as H.
  split; [exact H|].
  destruct H as [-> | (m & Hm & ->)]; [split; reflexivity|].
  unfold getStatusBadge.
  rewrite (geb_of_Z (- m) 0), (geb_of_Z (- m) 100), (geb_of_Z (- m) 75),
    (geb_of_Z (- m) 50).
  replace (0 <=? - m)%Z with false by (symmetry; apply Z.leb_gt; lia).
  replace (100 <=? - m)%Z with false by (symmetry; apply Z.leb_gt; lia).
  replace (75 <=? - m)%Z with false by (symmetry; apply Z.leb_gt; lia).
  replace (50 <=? - m)%Z with false by (symmetry; apply Z.leb_gt; lia).
  split; reflexivity.
Qed.

Lemma negative_target_not_clamped_witness :
  geb (getProgressPercentage (of_Z 5) (of_Z (-5))) (of_Z 0) = false /\
  badge_label (getStatusBadge (getProgressPercentage (of_Z 5) (of_Z (-5))))
  = "Just Started".
Proof.
  exact (proj2 (negative_target_not_clamped 5 (-5) ltac:(lia) ltac:(lia))).
Defined.

(** X6: for a positive target the status never falls back as the progress
    grows: a threshold reached at one progress is reached at every larger
    one. *)
Theorem status_never_falls_back (p1 p2 t c : Z) :
  (0 <= p1)%Z -> (p1 <= p2)%Z -> (0 < t)%Z ->
  geb (getProgressPercentage (of_Z p1) (of_Z t)) (of_Z c) = true ->
  geb (getProgressPercentage (of_Z p2) (of_Z t)) (of_Z c) = true.
Proof.
  intros H1 H12 Ht Hc.
  pose proof (le_nn_geb _ _ (percentage_le_nn p1 p2 t H1 H12 Ht)) as Hge.
  destruct (percentage_of_product _ (product_nn p1 t H1 Ht))
    as (k1 & Hk1 & _).
  destruct (percentage_of_product _ (product_nn p2 t ltac:(lia) Ht))
    as (k2 & Hk2 & _).
  fold (getProgressPercentage (of_Z p1) (of_Z t)) in Hk1.
  fold (getProgressPercentage (of_Z p2) (of_Z t)) in Hk2.
  rewrite Hk1, Hk2, geb_of_Z in *.
  apply Z.leb_le in Hge, Hc. apply Z.leb_le. lia.
Qed.

Lemma status_never_falls_back_witness :
  geb (getProgressPercentage (of_Z 9) (of_Z 10)) (of_Z 75) = true.
Proof.
  apply (status_never_falls_back 8 9 10 75); try lia.
  vm_compute. reflexivity.
Defined.

(** X7: when 100 * progress is an integer multiple m of the target, the
    percentage is exactly min(m, 100): the two roundings of the doubles do
    not show. *)
Theorem exact_percentage_when_divisible (p t m : Z) :
  (0 <= p)%Z -> (0 < t)%Z -> (100 * p = m * t)%Z ->
  getProgressPercentage (of_Z p) (of_Z t) = of_Z (Z.min m 100).
Proof. apply percentage_exact. Qed.

Lemma exact_percentage_when_divisible_witness :
  getProgressPercentage (of_Z 3) (of_Z 10) = of_Z 30.
Proof.
  apply (exact_percentage_when_divisible 3 10 30); lia.
Defined.

(** X8: half of a positive target always shows at least 50 percent, hence
    at least "In Progress", and three quarters at least 75 percent, hence at
    least "Almost There". *)
Theorem half_and_three_quarters_reached (p t : Z) :
  (0 <= p)%Z -> (0 < t)%Z ->
  ((t <= 2 * p)%Z ->
   geb (getProgressPercentage (of_Z p) (of_Z t)) (of_Z 50) = true) /\
  ((3 * t <= 4 * p)%Z ->
   geb (getProgressPercentage (of_Z p) (of_Z t)) (of_Z 75) = true).
Proof.
  intros Hp Ht. split; intros H.
  - destruct (percentage_at_least (1 # 2) 50 p t eq_refl nearest_half
                nearest_50 ltac:(reflexivity) Hp Ht) as (k & Hk & Hk50).
    { apply (share_ge 1 2 p t); lia. }
    rewrite Hk, geb_of_Z. apply Z.leb_le. lia.
  - destruct (percentage_at_least (3 # 4) 75 p t eq_refl
                nearest_three_quarters nearest_75 ltac:(reflexivity) Hp Ht)
      as (k & Hk & Hk75).
    { apply (share_ge 3 4 p t); lia. }
    rewrite Hk, geb_of_Z. apply Z.leb_le. lia.
Qed.

Lemma half_and_three_quarters_reached_witness :
  geb (getProgressPercentage (of_Z 7) (of_Z 14)) (of_Z 50) = true /\
  geb (getProgressPercentage (of_Z 12) (of_Z 16)) (of_Z 75) = true.
Proof.
  split.
  - apply (proj1 (half_and_three_quarters_reached 7 14
                    ltac:(lia) ltac:(lia))). lia.
  - apply (proj2 (half_and_three_quarters_reached 12 16
                    ltac:(lia) ltac:(lia))). lia.
Defined.

(** ** The cards of the view *)

(** X9: a non-empty goal list never renders the empty state: the view holds
    one or two cards, the daily card before the weekly one. *)
Theorem view_has_one_or_two_cards (goals : list Goal)
    (completed_today completed_week : option number) :
  goals <> [] ->
  exists cards : list GoalCardView,
    StudentGoals (Some goals) completed_today completed_week
    = GoalCards cards /\
    (1 <= length cards <= 2)%nat /\
    cards = cards_of_kind daily cards ++ cards_of_kind weekly cards.
Proof.
  intros Hne. rewrite StudentGoals_nonempty by exact Hne.
  eexists. split; [reflexivity|].
  destruct (find_some_kind goals Hne) as [H | H];
    destruct (find (fun g => GoalType_eqb (type g) daily) goals);
    destruct (find (fun g => GoalType_eqb (type g) weekly) goals);
    try congruence; cbn; split; try lia; reflexivity.
Qed.

Lemma view_has_one_or_two_cards_witness :
  let w := mkGoal 3 weekly (of_Z 20) (of_Z 0) "2025-W01" in
  let d := mkGoal 1 daily (of_Z 10) (of_Z 0) "2025-01-01" in
  exists cards : list GoalCardView,
    StudentGoals (Some [w; d]) None None = GoalCards cards /\
    (1 <= length cards <= 2)%nat /\
    cards = cards_of_kind daily cards ++ cards_of_kind weekly cards.
Proof.
  intros w d. apply (view_has_one_or_two_cards [w; d] None None).
  discriminate.
Defined.

(** X10: every card of the view belongs to a goal of the list: its delete
    button carries that goal, its kind, title and icon are those of the
    goal's type, its target is the goal's, its progress is the counter of its
    kind, and percentage and badge are computed from these two. *)
Theorem rendered_card_invariant (goals : list Goal)
    (completed_today completed_week : option number) (c : GoalCardView) :
  In c (view_cards
          (StudentGoals (Some goals) completed_today completed_week)) ->
  In (card_goal c) goals /\
  type (card_goal c) = card_dialog_type c /\
  card_target c = target (card_goal c) /\
  card_progress c
  = progress_for (card_dialog_type c) completed_today completed_week /\
  card_percentage c
  = getProgressPercentage (card_progress c) (card_target c) /\
  card_badge c = getStatusBadge (card_percentage c) /\
  (card_title c, card_icon c)
  = match type (card_goal c) with
    | daily => ("Daily Goal", "Clock")
    | weekly => ("Weekly Goal", "Calendar")
    end.
Proof.
  destruct goals as [| g0 goals]; [intros []|].
  rewrite StudentGoals_nonempty by discriminate. cbn [view_cards].
  set (l := g0 :: goals). intros Hc. apply in_app_or in Hc.
  destruct Hc as [Hc | Hc].
  - destruct (find (fun g => GoalType_eqb (type g) daily) l) as [g |] eqn:E;
      [|destruct Hc].
    destruct Hc as [<- | []]. apply find_some in E. destruct E as [Hin Hty].
    apply GoalType_eqb_eq in Hty. cbn. rewrite Hty. repeat split; assumption.
  - destruct (find (fun g => GoalType_eqb (type g) weekly) l) as [g |] eqn:E;
      [|destruct Hc].
    destruct Hc as [<- | []]. apply find_some in E. destruct E as [Hin Hty].
    apply GoalType_eqb_eq in Hty. cbn. rewrite Hty. repeat split; assumption.
Qed.

Lemma rendered_card_invariant_witness :
  let w := mkGoal 3 weekly (of_Z 20) (of_Z 0) "2025-W01" in
  let d := mkGoal 1 daily (of_Z 10) (of_Z 0) "2025-01-01" in
  let c := GoalCard w (of_Z 5) weekly in
  In (card_goal c) [d; w] /\ type (card_goal c) = card_dialog_type c.
Proof.
  intros w d c.
  destruct (rendered_card_invariant [d; w] None (Some (of_Z 5)) c)
    as (H1 & H2 & _).
  - right. left. reflexivity.
  - split; [exact H1 | exact H2].
Defined.

(** X11: the daily card never reads the week counter and the weekly card
    never reads the day counter. *)
Theorem cards_read_their_own_counter (goals : list Goal)
    (ct ct' cw cw' : option number) :
  cards_of_kind daily (view_cards (StudentGoals (Some goals) ct cw))
  = cards_of_kind daily (view_cards (StudentGoals (Some goals) ct cw')) /\
  cards_of_kind weekly (view_cards (StudentGoals (Some goals) ct cw))
  = cards_of_kind weekly (view_cards (StudentGoals (Some goals) ct' cw)).
Proof.
  destruct goals as [| g0 goals]; [split; reflexivity|].
  rewrite !cards_of_kind_StudentGoals by discriminate. split; reflexivity.
Qed.

(** ** The delete request and the cache *)



(** X13: whichever way the delete request goes, the handlers never write
    cached data: every read returns what it returned before, no cache entry
    is added or dropped, and the component renders the same view until a
    refetch brings new data. *)
Theorem mutate_keeps_cached_data (apiRequest : string -> string -> bool)
    (studentRegNo : string) (goalId : Z) (c : Client) :
  (forall k : list string,
     useQuery k (mutate apiRequest studentRegNo goalId c) = useQuery k c) /\
  dom (queries (mutate apiRequest studentRegNo goalId c)) = dom (queries c) /\
  render studentRegNo (mutate apiRequest studentRegNo goalId c)
  = render studentRegNo c.
Proof.
  split; [intros k; apply useQuery_mutate|]. split.
  - apply set_eq. intros k. rewrite !elem_of_dom. unfold mutate.
    destruct (apiRequest "DELETE" (deleteUrl studentRegNo goalId));
      [|reflexivity].
    rewrite queries_onSuccess. cbn [queries].
    rewrite fmap_is_Some. reflexivity.
  - unfold render. rewrite !useQuery_mutate. reflexivity.
Qed.

(** ** Scaling *)


